(** * Stock dashboard: quote cache, refresh loop and portfolio ledger

    A shallow embedding of [src/main.py]: the [StockDataManager] (a
    time-boxed cache in front of the market-data provider), the
    [PortfolioManager] (holdings and watchlist) and [update_market_data]
    (the refresh loop over the tracked symbols).

    Conventions of the embedding.
    - Python [float] and numpy [float64] values are IEEE binary64 numbers:
      Rocq's primitive [float].  Python [int] is [Z].
    - [str] is [string]; ticker symbols are ASCII text and [str.upper] is
      modelled on ASCII.
    - [datetime] is a number of microseconds ([Z]); a [timedelta] likewise.
    - A [dict] keyed by symbol is a [gmap string _]; a Python list is a
      [list].
    - Methods mutate [self]: here they take the object and return the new
      one.  Code that can raise returns a [result].
    - What the outside world does during one call of [get_stock_data] (the
      two clock readings and the provider's answer) is an [Env]. *)

From Stdlib Require Import ZArith List Ascii String PrimFloat Lia.
From stdpp Require Import base option list gmap strings.
From stdpp Require Import pretty.

Local Open Scope Z_scope.

(** ** Python values *)

Inductive exn := RuntimeError | ValueError | ZeroDivisionError.

Inductive result (A : Type) :=
| Ok (a : A)
| Raise (e : exn).
Arguments Ok {A} a.
Arguments Raise {A} e.

Definition datetime := Z.
Definition timedelta := Z.

(** [timedelta(minutes=n)], in microseconds. *)
Definition timedelta_minutes (n : Z) : timedelta := n * 60 * 1000000.

(** A Python number that is either an [int] or a [float]. *)
Inductive number :=
| Int (z : Z)
| Float (f : float).

(** [str.upper()] on ASCII text: the letters a-z go to A-Z, every other
    character stays. *)
Definition upper_char (c : ascii) : ascii :=
  let n := nat_of_ascii c in
  if ((97 <=? n) && (n <=? 122))%nat then ascii_of_nat (n - 32) else c.

Fixpoint upper (s : string) : string :=
  match s with
  | EmptyString => EmptyString
  | String c rest => String (upper_char c) (upper rest)
  end.

(** [list.remove(x)]: drops the first occurrence of [x]; [None] stands for
    the [ValueError] raised when there is none. *)
Fixpoint list_remove (x : string) (l : list string) : option (list string) :=
  match l with
  | [] => None
  | y :: rest =>
      if decide (y = x) then Some rest
      else match list_remove x rest with
           | Some rest' => Some (y :: rest')
           | None => None
           end
  end.

(** [list.count(x)] *)
Fixpoint list_count (x : string) (l : list string) : nat :=
  match l with
  | [] => 0
  | y :: rest => (if decide (y = x) then 1 else 0) + list_count x rest
  end%nat.

(** [float(z)] for an [int] (exact up to 2^53). *)
Fixpoint float_of_positive (p : positive) : float :=
  match p with
  | xH => 1
  | xO q => 2 * float_of_positive q
  | xI q => 2 * float_of_positive q + 1
  end%float.

Definition float_of_int (z : Z) : float :=
  match z with
  | Z0 => 0
  | Zpos p => float_of_positive p
  | Zneg p => - float_of_positive p
  end%float.

(** [a / b] on two [int]s (true division). *)
Definition int_truediv (a b : Z) : float :=
  (float_of_int a / float_of_int b)%float.

(** ** StockData and the provider *)

Record StockData := mkStockData {
  symbol : string;
  name : string;
  price : float;
  change : float;
  change_percent : float;
  volume : Z;
  market_cap : option float;
  pe_ratio : option float;
  dividend_yield : option float;
  last_updated : datetime
}.

(** The keys of [ticker.info] that the code reads with [info.get]; a field
    is [None] when [info.get] gives [None]. *)
Record TickerInfo := mkTickerInfo {
  longName : option string;
  marketCap : option float;
  trailingPE : option float;
  dividendYield : option float
}.

(** One row of [ticker.history(period="2d")]. *)
Record Bar := mkBar {
  Close : float;
  Volume : Z
}.

(** What [yf.Ticker(symbol)], [.info] and [.history] do in one call:
    raise (a transport error, or any other exception before the cache is
    written), or hand back the info and the rows, oldest first. *)
Inductive Provider :=
| Raises
| Returns (info : TickerInfo) (hist : list Bar).

(** The outside world during one call of [get_stock_data]: [datetime.now()]
    as read by the freshness test, the provider's answer, and
    [datetime.now()] as read when the new [StockData] is built (the
    [default_factory] of [last_updated]). *)
Record Env := mkEnv {
  now_check : datetime;
  provider : Provider;
  now_stamp : datetime
}.

(** [StockDataManager]: the cache, and (a ghost field) the symbols handed to
    the provider so far, oldest first. *)
Record StockDataManager := mkStockDataManager {
  cache : gmap string StockData;
  fetched : list string
}.

Definition cache_duration : timedelta := timedelta_minutes 1.

Definition new_StockDataManager : StockDataManager :=
  {| cache := ∅; fetched := [] |}.

(** The first block of [get_stock_data]: the entry stored under [symbol],
    when there is one and it is younger than [cache_duration]. *)
Definition cache_hit (w : Env) (symbol : string) (m : StockDataManager)
  : option StockData :=
  match cache m !! symbol with
  | Some cached_data =>
      if now_check w - last_updated cached_data <? cache_duration
      then Some cached_data
      else None
  | None => None
  end.

(** [(change / previous_price) * 100 if previous_price != 0 else 0] *)
Definition percent_change (change previous_price : float) : float :=
  (if negb (previous_price =? 0) then (change / previous_price) * 100
   else 0)%float.

(** [StockDataManager.get_stock_data]; [None] is Python's [None]. *)
Definition get_stock_data (w : Env) (symbol : string) (m : StockDataManager)
  : option StockData * StockDataManager :=
  match cache_hit w symbol m with
  | Some cached_data => (Some cached_data, m)
  | None =>
      let m1 := {| cache := cache m; fetched := fetched m ++ [symbol] |} in
      match provider w with
      | Raises => (None, m1)
      | Returns info hist =>
          match rev hist with
          | [] => (None, m1)
          | last_row :: earlier =>
              let current_price := Close last_row in
              let previous_price :=
                match earlier with
                | prev_row :: _ => Close prev_row
                | [] => current_price
                end in
              let change := (current_price - previous_price)%float in
              let change_percent := percent_change change previous_price in
              let stock_data :=
                {| symbol := upper symbol;
                   name := default symbol (longName info);
                   price := current_price;
                   change := change;
                   change_percent := change_percent;
                   volume := Volume last_row;
                   market_cap := marketCap info;
                   pe_ratio := trailingPE info;
                   dividend_yield := dividendYield info;
                   last_updated := now_stamp w |} in
              (Some stock_data,
               {| cache := <[symbol := stock_data]> (cache m1);
                  fetched := fetched m1 |})
          end
      end
  end.

(** Whether the provider's answer is a failed fetch: an exception, or an
    empty history. *)
Definition fetch_failed (p : Provider) : bool :=
  match p with
  | Raises => true
  | Returns _ [] => true
  | Returns _ (_ :: _) => false
  end.

(** ** PortfolioManager *)

Record Holding := mkHolding {
  h_symbol : string;
  h_shares : float;
  h_purchase_price : float;
  h_purchase_date : datetime
}.

Record PortfolioManager := mkPortfolioManager {
  portfolio : list Holding;
  watchlist : list string
}.

Definition new_PortfolioManager : PortfolioManager :=
  {| portfolio := [];
     watchlist := ["AAPL"; "GOOGL"; "MSFT"; "TSLA"; "AMZN"; "NVDA"; "META";
                   "NFLX"]%string |}.

(** [now] is the [datetime.now()] stored as the purchase date. *)
Definition add_to_portfolio (now : datetime) (symbol : string)
    (shares purchase_price : float) (pm : PortfolioManager)
  : PortfolioManager :=
  {| portfolio := portfolio pm ++
       [ {| h_symbol := upper symbol;
            h_shares := shares;
            h_purchase_price := purchase_price;
            h_purchase_date := now |} ];
     watchlist := watchlist pm |}.

Definition add_to_watchlist (symbol : string) (pm : PortfolioManager)
  : PortfolioManager :=
  let symbol := upper symbol in
  if bool_decide (symbol ∉ watchlist pm)
  then {| portfolio := portfolio pm; watchlist := watchlist pm ++ [symbol] |}
  else pm.

Definition remove_from_watchlist (symbol : string) (pm : PortfolioManager)
  : result PortfolioManager :=
  if bool_decide (symbol ∈ watchlist pm)
  then match list_remove symbol (watchlist pm) with
       | Some wl => Ok {| portfolio := portfolio pm; watchlist := wl |}
       | None => Raise ValueError
       end
  else Ok pm.

(** *** The event loop seen by [calculate_portfolio_value]

    A coroutine object records the call it will make once it is run.
    [asyncio.create_task] needs a running loop (it raises [RuntimeError]
    without one) and only appends the coroutine to the loop's queue: no
    task runs before the synchronous caller returns to the loop. *)
Inductive Coroutine :=
| GetStockData (symbol : string).

Definition EventLoop := list Coroutine.

Definition create_task (running : option EventLoop) (c : Coroutine)
  : result EventLoop :=
  match running with
  | Some queue => Ok (queue ++ [c])
  | None => Raise RuntimeError
  end.

(** The [for holding in self.portfolio] loop of
    [calculate_portfolio_value]: its body only creates a task. *)
Fixpoint launch_tasks (holdings : list Holding) (running : option EventLoop)
  : result (option EventLoop) :=
  match holdings with
  | [] => Ok running
  | holding :: rest =>
      match create_task running (GetStockData (h_symbol holding)) with
      | Ok queue => launch_tasks rest (Some queue)
      | Raise e => Raise e
      end
  end.

(** The returned [dict]. *)
Record Summary := mkSummary {
  total_value : number;
  total_cost : number;
  total_pnl : number;
  total_pnl_percent : number
}.

(** [PortfolioManager.calculate_portfolio_value].  The result also carries
    the event loop as the call leaves it. *)
Definition calculate_portfolio_value (pm : PortfolioManager)
    (stock_data_manager : StockDataManager) (running : option EventLoop)
  : result (Summary * option EventLoop) :=
  let total_value := 0 in
  let total_cost := 0 in
  match launch_tasks (portfolio pm) running with
  | Raise e => Raise e
  | Ok running' =>
      Ok ({| total_value := Int total_value;
             total_cost := Int total_cost;
             total_pnl := Int (total_value - total_cost);
             total_pnl_percent :=
               if total_cost >? 0
               then Float (int_truediv (total_value - total_cost) total_cost
                           * 100)%float
               else Int 0 |},
          running')
  end.

(** The summary whose four entries are the [int] 0. *)
Definition zero_summary : Summary :=
  {| total_value := Int 0; total_cost := Int 0; total_pnl := Int 0;
     total_pnl_percent := Int 0 |}.

(** *** The totals of [create_portfolio_content]

    The loop of [create_portfolio_content] that prices each holding
    against the snapshot [current_data] and accumulates the totals (the UI
    calls around it are left out).  The totals start as the [int] 0 and
    become [float]s with the first [+=]. *)
Definition number_add_float (n : number) (x : float) : number :=
  match n with
  | Int z => Float (float_of_int z + x)
  | Float f => Float (f + x)
  end.

(** [a / b] on two Python [float]s raises on a zero divisor. *)
Definition float_truediv (a b : float) : result float :=
  if (b =? 0)%float then Raise ZeroDivisionError else Ok (a / b)%float.

Fixpoint create_portfolio_content_totals (holdings : list Holding)
    (current_data : gmap string StockData) (totals : number * number)
  : result (number * number) :=
  match holdings with
  | [] => Ok totals
  | holding :: rest =>
      let shares := h_shares holding in
      let purchase_price := h_purchase_price holding in
      let cost_basis := (shares * purchase_price)%float in
      match current_data !! h_symbol holding with
      | Some data =>
          let current_price := price data in
          let current_value := (shares * current_price)%float in
          let pnl := (current_value - cost_basis)%float in
          match float_truediv pnl cost_basis with
          | Raise e => Raise e
          | Ok _ =>
              create_portfolio_content_totals rest current_data
                (number_add_float (fst totals) current_value,
                 number_add_float (snd totals) cost_basis)
          end
      | None => create_portfolio_content_totals rest current_data totals
      end
  end.

(** ** The refresh loop *)

Definition MARKET_INDICES : list (string * string) :=
  [ ("^GSPC", "S&P 500"); ("^DJI", "Dow Jones"); ("^IXIC", "NASDAQ");
    ("^VIX", "VIX") ]%string.

(** The module-level objects that [update_market_data] works on. *)
Record App := mkApp {
  stock_manager : StockDataManager;
  portfolio_manager : PortfolioManager;
  current_data : gmap string StockData
}.

(** The body shared by the two loops of [update_market_data]:
    [data = await stock_manager.get_stock_data(symbol)] and then
    [if data: current_data[symbol] = data].  A [StockData] object is always
    truthy, so the test is on [None]. *)
Definition refresh_symbol (w : Env) (symbol : string)
    (st : StockDataManager * gmap string StockData)
  : StockDataManager * gmap string StockData :=
  let '(data, sm) := get_stock_data w symbol (fst st) in
  (sm, match data with
       | Some d => <[symbol := d]> (snd st)
       | None => snd st
       end).

(** A [for symbol in symbols] loop; [E i] is the outside world during the
    [i]-th call of [get_stock_data] of the run. *)
Fixpoint refresh_symbols (E : nat -> Env) (i : nat) (symbols : list string)
    (st : StockDataManager * gmap string StockData)
  : StockDataManager * gmap string StockData :=
  match symbols with
  | [] => st
  | symbol :: rest =>
      refresh_symbols E (S i) rest (refresh_symbol (E i) symbol st)
  end.

Definition update_market_data (E : nat -> Env) (app : App) : App :=
  let st0 := (stock_manager app, current_data app) in
  let st1 := refresh_symbols E 0 (fst <$> MARKET_INDICES) st0 in
  let st2 := refresh_symbols E (length MARKET_INDICES)
               (watchlist (portfolio_manager app)) st1 in
  {| stock_manager := fst st2;
     portfolio_manager := portfolio_manager app;
     current_data := snd st2 |}.

(** *** Observing a run

    What each call of [get_stock_data] returned during a loop, in order:
    the symbol asked for and the answer. *)
Fixpoint call_results (E : nat -> Env) (i : nat) (symbols : list string)
    (sm : StockDataManager) : list (string * option StockData) :=
  match symbols with
  | [] => []
  | symbol :: rest =>
      let r := get_stock_data (E i) symbol sm in
      (symbol, fst r) :: call_results E (S i) rest (snd r)
  end.

(** The symbols a run of [update_market_data] asks for. *)
Definition tracked_symbols (app : App) : list string :=
  (fst <$> MARKET_INDICES) ++ watchlist (portfolio_manager app).

Definition update_results (E : nat -> Env) (app : App)
  : list (string * option StockData) :=
  call_results E 0 (tracked_symbols app) (stock_manager app).

(** ** The states a [PortfolioManager] can be in

    The object starts as [PortfolioManager()] and changes only through its
    three mutators. *)
Inductive reachable : PortfolioManager -> Prop :=
| reachable_new : reachable new_PortfolioManager
| reachable_add_to_portfolio now s shares purchase_price pm :
    reachable pm ->
    reachable (add_to_portfolio now s shares purchase_price pm)
| reachable_add_to_watchlist s pm :
    reachable pm -> reachable (add_to_watchlist s pm)
| reachable_remove_from_watchlist s pm pm' :
    reachable pm -> remove_from_watchlist s pm = Ok pm' -> reachable pm'.

(** ** The other pieces of [src/main.py]

    *** [FinancialAssetManager.get_financial_images] *)

Definition FINANCIAL_CATEGORIES : list (string * list string) :=
  [ ("hero",
     ["trading"; "stock-market"; "finance"; "analytics"; "business"]);
    ("charts", ["graphs"; "analytics"; "data"; "statistics"; "charts"]);
    ("portfolio",
     ["investment"; "portfolio"; "wealth"; "growth"; "success"]);
    ("market",
     ["wall-street"; "trading-floor"; "finance"; "market"; "economy"]);
    ("technology",
     ["fintech"; "technology"; "digital"; "innovation"; "computers"])
  ]%string.

(** [d[key]] on a [dict] literal, in the order it is written; [None] is the
    [KeyError]. *)
Fixpoint dict_lookup {A : Type} (key : string) (d : list (string * A))
  : option A :=
  match d with
  | [] => None
  | (k, v) :: rest => if decide (k = key) then Some v else dict_lookup key rest
  end.

(** The three entries of one image [dict]. *)
Record ImageUrls := mkImageUrls {
  primary : string;
  fallback : string;
  alt : string
}.

(** [range(count)] *)
Definition py_range (count : Z) : list Z :=
  Z.of_nat <$> seq 0 (Z.to_nat count).

(** The body of the loop of [get_financial_images] for one [i].  [hash] is
    Python's built-in [hash] on [str], which differs from one process to
    the next.  [None] stands for an exception: [ZeroDivisionError] from
    [i % len(categories)], [IndexError] from the subscript. *)
Definition financial_image (hash : string -> Z) (section : string)
    (categories : list string) (i : Z) : option ImageUrls :=
  let len := Z.of_nat (length categories) in
  if len =? 0 then None
  else
    match categories !! Z.to_nat (i mod len) with
    | None => None
    | Some keyword =>
        let seed :=
          hash ("financial_" +:+ section +:+ "_" +:+ pretty i) mod 10000 in
        Some {| primary := "https://source.unsplash.com/1200x600/?"
                           +:+ keyword +:+ "&sig=" +:+ pretty seed;
                fallback := "https://picsum.photos/1200/600?random="
                            +:+ pretty seed;
                alt := "Professional " +:+ keyword
                       +:+ " imagery for financial dashboard" |}
    end.

Fixpoint get_financial_images_loop (hash : string -> Z) (section : string)
    (categories : list string) (indices : list Z) (images : list ImageUrls)
  : option (list ImageUrls) :=
  match indices with
  | [] => Some images
  | i :: rest =>
      match financial_image hash section categories i with
      | Some image =>
          get_financial_images_loop hash section categories rest
            (images ++ [image])
      | None => None
      end
  end.

(** [FinancialAssetManager.get_financial_images(section, count)] *)
Definition get_financial_images (hash : string -> Z) (section : string)
    (count : Z) : option (list ImageUrls) :=
  let categories :=
    default ["finance"; "business"]%string
      (dict_lookup section FINANCIAL_CATEGORIES) in
  get_financial_images_loop hash section categories (py_range count) [].

(** *** [create_market_overview_chart]

    The three lists handed to [go.Bar] as [x], [y] and [marker_color]; the
    layout of the figure is left out.  [None] is the [except] branch (an
    empty figure), reached here by a [KeyError] of
    [MARKET_INDICES[symbol]]. *)
Fixpoint market_overview_loop (symbols : list string)
    (current_data : gmap string StockData)
    (acc : list string * list number * list string)
  : option (list string * list number * list string) :=
  match symbols with
  | [] => Some acc
  | symbol :: rest =>
      let '(names, changes, colors) := acc in
      match dict_lookup symbol MARKET_INDICES with
      | None => None
      | Some index_name =>
          match current_data !! symbol with
          | Some data =>
              market_overview_loop rest current_data
                (names ++ [index_name],
                 changes ++ [Float (change_percent data)],
                 colors ++ [if (0 <=? change_percent data)%float
                            then "green" else "red"]%string)
          | None =>
              market_overview_loop rest current_data
                (names ++ [index_name], changes ++ [Int 0],
                 colors ++ ["gray"%string])
          end
      end
  end.

Definition create_market_overview_chart
    (current_data : gmap string StockData)
  : option (list string * list number * list string) :=
  let symbols := fst <$> MARKET_INDICES in
  market_overview_loop symbols current_data ([], [], []).

(** The colours of the bars of the chart (none for the empty figure). *)
Definition bar_colors (current_data : gmap string StockData) : list string :=
  match create_market_overview_chart current_data with
  | Some (_, _, colors) => colors
  | None => []
  end.

(** *** The two [add_stock] handlers

    Both handlers end with [await refresh_dashboard()], which runs
    [update_market_data] and then redraws the two side panels.  The
    redrawing writes to none of the objects of [App] and is left out: the
    handlers are modelled by the [App] they leave behind.

    [add_stock] of [add_to_watchlist_dialog]; [value] is the text of the
    input field, [w] the world during the validating call, [E] the world
    during the refresh. *)
Inductive DialogOutcome :=
| AddedToWatchlist (symbol : string)
| InvalidSymbol (symbol : string)
| EnterSymbol.

Definition add_to_watchlist_dialog_add_stock (w : Env) (E : nat -> Env)
    (value : string) (app : App) : App * DialogOutcome :=
  if decide (value = ""%string) then (app, EnterSymbol)
  else
    let symbol := upper value in
    let '(data, sm) := get_stock_data w symbol (stock_manager app) in
    match data with
    | Some _ =>
        (update_market_data E
           {| stock_manager := sm;
              portfolio_manager :=
                add_to_watchlist symbol (portfolio_manager app);
              current_data := current_data app |},
         AddedToWatchlist symbol)
    | None =>
        ({| stock_manager := sm;
            portfolio_manager := portfolio_manager app;
            current_data := current_data app |},
         InvalidSymbol symbol)
    end.

(** [add_stock] of [create_portfolio_content].  [float_of_str] is Python's
    [float] on a [str] ([None] is its [ValueError]); the three strings are
    the texts of the input fields. *)
Definition create_portfolio_content_add_stock
    (float_of_str : string -> option float) (now : datetime)
    (E : nat -> Env) (symbol_value shares_value price_value : string)
    (app : App) : App :=
  if bool_decide (symbol_value ≠ ""%string)
     && bool_decide (shares_value ≠ ""%string)
     && bool_decide (price_value ≠ ""%string)
  then
    match float_of_str shares_value with
    | None => app
    | Some shares =>
        match float_of_str price_value with
        | None => app
        | Some purchase_price =>
            update_market_data E
              {| stock_manager := stock_manager app;
                 portfolio_manager :=
                   add_to_portfolio now symbol_value shares purchase_price
                     (portfolio_manager app);
                 current_data := current_data app |}
        end
    end
  else app.

(** ** How a [PortfolioManager] changes over time

    [evolves pm pm']: [pm'] is [pm] after any number of calls of the three
    mutators. *)
Inductive evolves : PortfolioManager -> PortfolioManager -> Prop :=
| evolves_refl pm : evolves pm pm
| evolves_add_to_portfolio now s shares purchase_price pm pm' :
    evolves pm pm' ->
    evolves pm (add_to_portfolio now s shares purchase_price pm')
| evolves_add_to_watchlist s pm pm' :
    evolves pm pm' -> evolves pm (add_to_watchlist s pm')
| evolves_remove_from_watchlist s pm pm' pm'' :
    evolves pm pm' -> remove_from_watchlist s pm' = Ok pm'' ->
    evolves pm pm''.

(** Every cached quote carries the uppercase form of the key it is stored
    under. *)
Definition cache_keys_match (m : StockDataManager) : Prop :=
  ∀ (k : string) (d : StockData), cache m !! k = Some d -> symbol d = upper k.

(** Whether a holding is priced by the snapshot, and whether its cost basis
    [shares * purchase_price] compares equal to 0. *)
Definition priced (current_data : gmap string StockData) (h : Holding)
  : bool :=
  bool_decide (is_Some (current_data !! h_symbol h)).

Definition zero_cost_basis (h : Holding) : bool :=
  (h_shares h * h_purchase_price h =? 0)%float.

(** ** Sample data *)

Definition no_info : TickerInfo :=
  {| longName := None; marketCap := None; trailingPE := None;
     dividendYield := None |}.

(** One second and one minute, in microseconds. *)
Definition seconds (n : Z) : datetime := n * 1000000.

(** The provider answers with two sessions closing at [prev] and [cur]. *)
Definition two_sessions (prev cur : float) : Provider :=
  Returns no_info [ {| Close := prev; Volume := 1000 |};
                    {| Close := cur; Volume := 1200 |} ].

(** A world whose two clock readings are both [t] seconds. *)
Definition world_at (t : Z) (p : Provider) : Env :=
  {| now_check := seconds t; provider := p; now_stamp := seconds t |}.

(** The [StockData] built at [t] seconds for [sym] from sessions closing at
    95 and 100. *)
Definition quote_100 (sym : string) (t : Z) : StockData :=
  {| symbol := upper sym; name := sym; price := 100; change := 5;
     change_percent := (5 / 95 * 100)%float; volume := 1200;
     market_cap := None; pe_ratio := None; dividend_yield := None;
     last_updated := seconds t |}.

(** The holding of the valuation scenario: 10 shares of AAPL bought at 150,
    and a quote pricing AAPL at 165. *)
Definition aapl_holding : Holding :=
  {| h_symbol := "AAPL"; h_shares := 10; h_purchase_price := 150;
     h_purchase_date := 0 |}.

Definition aapl_165 : StockData :=
  {| symbol := "AAPL"; name := "Apple Inc."; price := 165; change := 15;
     change_percent := 10; volume := 1200; market_cap := None;
     pe_ratio := None; dividend_yield := None; last_updated := 0 |}.

(** A run in which the provider fails for "^DJI" (the second call) and
    answers every other call, on an application that tracks the four
    indices and "AAPL" and whose snapshot already holds an entry for
    "^DJI" and one for the untracked "IBM". *)
Definition dji_down (i : nat) : Env :=
  world_at 120 (if (i =? 1)%nat then Raises else two_sessions 95 100).

Definition sample_app : App :=
  {| stock_manager := new_StockDataManager;
     portfolio_manager := {| portfolio := []; watchlist := ["AAPL"%string] |};
     current_data := {[ "^DJI"%string := quote_100 "^DJI" 0;
                        "IBM"%string := quote_100 "IBM" 0 ]} |}.

(** An application that tracks the four indices and "AAPL", whose cache
    holds a quote stamped at 0 s for each of them and whose snapshot is
    empty; and a run at 30 s during which the provider is down. *)
Definition warm_app : App :=
  {| stock_manager :=
       {| cache := {[ "^GSPC"%string := quote_100 "^GSPC" 0;
                      "^DJI"%string := quote_100 "^DJI" 0;
                      "^IXIC"%string := quote_100 "^IXIC" 0;
                      "^VIX"%string := quote_100 "^VIX" 0;
                      "AAPL"%string := quote_100 "AAPL" 0 ]};
          fetched := ["^GSPC"; "^DJI"; "^IXIC"; "^VIX"; "AAPL"]%string |};
     portfolio_manager := {| portfolio := []; watchlist := ["AAPL"%string] |};
     current_data := ∅ |}.

Definition provider_down (i : nat) : Env := world_at 30 Raises.

(** [shares * current_price] of a holding that the snapshot prices, and
    [shares * purchase_price]. *)
Definition current_value (current_data : gmap string StockData) (h : Holding)
  : float :=
  match current_data !! h_symbol h with
  | Some data => (h_shares h * price data)%float
  | None => 0%float
  end.

Definition cost_basis (h : Holding) : float :=
  (h_shares h * h_purchase_price h)%float.

(** A holding of no share at all, and a snapshot that prices AAPL. *)
Definition empty_lot : Holding :=
  {| h_symbol := "AAPL"; h_shares := 0; h_purchase_price := 150;
     h_purchase_date := 0 |}.

Definition aapl_snapshot : gmap string StockData :=
  {[ "AAPL"%string := aapl_165 ]}.

(** ** Sanity checks of the embedding *)

Example upper_aapl : upper "aapl" = "AAPL"%string.
Proof. reflexivity. Qed.

Example upper_index : upper "^gspc" = "^GSPC"%string.
Proof. reflexivity. Qed.

Example cache_duration_is_one_minute : cache_duration = seconds 60.
Proof. reflexivity. Qed.

Example get_stock_data_first_fetch :
  get_stock_data (world_at 0 (two_sessions 95 100)) "AAPL"
    new_StockDataManager
  = (Some (quote_100 "AAPL" 0),
     {| cache := {[ "AAPL"%string := quote_100 "AAPL" 0 ]};
        fetched := ["AAPL"%string] |}).
Proof. reflexivity. Qed.

Example list_remove_first_only :
  list_remove "B" ["A"; "B"; "C"; "B"]%string = Some ["A"; "C"; "B"]%string.
Proof. reflexivity. Qed.

(** * Properties *)

(** ** [str.upper] *)

Lemma upper_char_idemp (c : ascii) : upper_char (upper_char c) = upper_char c.
Proof. destruct c as [[] [] [] [] [] [] [] []]; reflexivity. Qed.

Lemma upper_idemp (s : string) : upper (upper s) = upper s.
Proof.
  induction s as [| c rest IH]; simpl; [reflexivity |].
  now rewrite upper_char_idemp, IH.
Qed.

(** ** The cache of [get_stock_data] *)

Section QuoteCache.
Variables (w : Env) (s : string) (m : StockDataManager).

(** A fresh entry is returned as it is, and nothing changes. *)
Lemma get_stock_data_hit (q : StockData) :
  cache_hit w s m = Some q -> get_stock_data w s m = (Some q, m).
Proof. intros H. unfold get_stock_data. now rewrite H. Qed.

(** Without a fresh entry the provider is asked, once. *)
Lemma get_stock_data_miss_fetches :
  cache_hit w s m = None ->
  fetched (snd (get_stock_data w s m)) = fetched m ++ [s].
Proof.
  intros H. unfold get_stock_data. rewrite H.
  destruct (provider w) as [| info hist]; [reflexivity |].
  destruct (rev hist) as [| last_row earlier]; reflexivity.
Qed.

(** A fresh entry is the entry stored under the very key [s]. *)
Lemma cache_hit_lookup (q : StockData) :
  cache_hit w s m = Some q -> cache m !! s = Some q.
Proof.
  unfold cache_hit. destruct (cache m !! s) as [c |]; [| discriminate].
  destruct (_ <? _); congruence.
Qed.

(** Whatever is returned is what the cache then holds under [s]. *)
Lemma get_stock_data_returns_entry (q : StockData) :
  fst (get_stock_data w s m) = Some q ->
  cache (snd (get_stock_data w s m)) !! s = Some q.
Proof.
  unfold get_stock_data.
  destruct (cache_hit w s m) as [c |] eqn:Hhit; simpl.
  - intros [= ->]. now apply cache_hit_lookup.
  - destruct (provider w) as [| info hist]; [discriminate |].
    destruct (rev hist) as [| last_row earlier]; [discriminate |].
    simpl. intros [= <-]. apply lookup_insert_eq.
Qed.

(** No other key is read or written. *)
Lemma get_stock_data_other_keys (s' : string) :
  s' ≠ s -> cache (snd (get_stock_data w s m)) !! s' = cache m !! s'.
Proof.
  intros Hne. unfold get_stock_data.
  destruct (cache_hit w s m) as [c |]; [reflexivity |].
  destruct (provider w) as [| info hist]; [reflexivity |].
  destruct (rev hist) as [| last_row earlier]; [reflexivity |].
  simpl. now apply lookup_insert_ne.
Qed.

(** A call that returns [None] leaves the cache as it was. *)
Lemma get_stock_data_none_keeps_cache :
  fst (get_stock_data w s m) = None ->
  cache (snd (get_stock_data w s m)) = cache m.
Proof.
  unfold get_stock_data.
  destruct (cache_hit w s m) as [c |]; [reflexivity |].
  destruct (provider w) as [| info hist]; [reflexivity |].
  destruct (rev hist) as [| last_row earlier]; [reflexivity | discriminate].
Qed.

(** A failed fetch makes the call return [None], unless a fresh entry
    answered it before the provider was asked. *)
Lemma get_stock_data_failed_fetch :
  fetch_failed (provider w) = true ->
  cache_hit w s m = None ->
  get_stock_data w s m
  = (None, {| cache := cache m; fetched := fetched m ++ [s] |}).
Proof.
  intros Hfail Hmiss. unfold get_stock_data. rewrite Hmiss.
  destruct (provider w) as [| info [| row rows]];
    [reflexivity | reflexivity | discriminate].
Qed.
End QuoteCache.

(** C3. When [get_stock_data s] has returned a quote [q], stamped at
    [t = last_updated q] (the time of the call when the quote was fetched
    by it), a second call that reads the clock at [t'] with
    [t' - t < cache_duration] (one minute) returns [q] and leaves the
    manager as it is, so the provider is not asked again; a second call
    with [t' - t >= cache_duration] asks the provider again. *)
Theorem get_stock_data_ttl (w1 w2 : Env) (s : string)
    (m m1 : StockDataManager) (q : StockData) :
  get_stock_data w1 s m = (Some q, m1) ->
  cache_duration = 60 * 1000000
  ∧ (fetched m1 = fetched m ++ [s] -> last_updated q = now_stamp w1)
  ∧ (now_check w2 - last_updated q < cache_duration ->
     get_stock_data w2 s m1 = (Some q, m1))
  ∧ (cache_duration <= now_check w2 - last_updated q ->
     fetched (snd (get_stock_data w2 s m1)) = fetched m1 ++ [s]).
Proof.
  intros Hcall.
  assert (Hentry : cache m1 !! s = Some q).
  { pose proof (get_stock_data_returns_entry w1 s m q) as H.
    rewrite Hcall in H. now apply H. }
  split; [reflexivity |]. split; [| split].
  - revert Hcall. unfold get_stock_data.
    destruct (cache_hit w1 s m) as [c |].
    + intros [= -> <-] Hgrow.
      apply (f_equal length) in Hgrow. rewrite length_app in Hgrow.
      simpl in Hgrow. lia.
    + destruct (provider w1) as [| info hist]; [discriminate |].
      destruct (rev hist) as [| last_row earlier]; [discriminate |].
      now intros [= <- <-].
  - intros Hfresh. apply get_stock_data_hit. unfold cache_hit.
    rewrite Hentry. now apply Z.ltb_lt in Hfresh as ->.
  - intros Hstale. apply get_stock_data_miss_fetches. unfold cache_hit.
    rewrite Hentry. now apply Z.ltb_ge in Hstale as ->.
Qed.

(** The scenario of C3: a fetch at t = 0 s returns price 100; the call at
    t = 30 s returns that quote without a fetch, the call at t = 61 s asks
    the provider again. *)
Lemma get_stock_data_ttl_scenario :
  let m1 := {| cache := {[ "AAPL"%string := quote_100 "AAPL" 0 ]};
               fetched := ["AAPL"%string] |} in
  price (quote_100 "AAPL" 0) = 100%float
  ∧ get_stock_data (world_at 30 Raises) "AAPL" m1
    = (Some (quote_100 "AAPL" 0), m1)
  ∧ fetched (snd (get_stock_data (world_at 61 Raises) "AAPL" m1))
    = ["AAPL"; "AAPL"]%string.
Proof.
  intros m1.
  destruct (get_stock_data_ttl (world_at 0 (two_sessions 95 100))
              (world_at 30 Raises) "AAPL" new_StockDataManager m1
              (quote_100 "AAPL" 0) eq_refl) as (_ & _ & Hfresh & _).
  destruct (get_stock_data_ttl (world_at 0 (two_sessions 95 100))
              (world_at 61 Raises) "AAPL" new_StockDataManager m1
              (quote_100 "AAPL" 0) eq_refl) as (_ & _ & _ & Hstale).
  split; [reflexivity |]. split.
  - apply Hfresh. vm_compute. reflexivity.
  - apply Hstale. vm_compute. discriminate.
Defined.

(** C4. When the underlying fetch of [get_stock_data s] fails (the provider
    raises, or the history is empty), the cache is left exactly as it was,
    so every entry, that of [s] included, is unchanged and none is added;
    and the call, which reached the provider because no fresh entry
    answered it, returns [None]. *)
Theorem get_stock_data_failure_not_cached (w : Env) (s : string)
    (m : StockDataManager) :
  fetch_failed (provider w) = true ->
  cache (snd (get_stock_data w s m)) = cache m
  ∧ (∀ k : string, cache (snd (get_stock_data w s m)) !! k = cache m !! k)
  ∧ (cache_hit w s m = None -> fst (get_stock_data w s m) = None).
Proof.
  intros Hfail.
  assert (Hcache : cache (snd (get_stock_data w s m)) = cache m).
  { destruct (cache_hit w s m) as [c |] eqn:Hhit.
    - now rewrite (get_stock_data_hit w s m c Hhit).
    - now rewrite (get_stock_data_failed_fetch w s m Hfail Hhit). }
  split; [exact Hcache |]. split.
  - intros k. now rewrite Hcache.
  - intros Hmiss. now rewrite (get_stock_data_failed_fetch w s m Hfail Hmiss).
Qed.

(** A transport error after a stale entry: the call returns [None] and the
    stale entry is still there. *)
Lemma get_stock_data_failure_not_cached_witness :
  let m1 := {| cache := {[ "AAPL"%string := quote_100 "AAPL" 0 ]};
               fetched := ["AAPL"%string] |} in
  let r := get_stock_data (world_at 61 Raises) "AAPL" m1 in
  cache (snd r) = cache m1
  ∧ cache (snd r) !! "AAPL"%string = Some (quote_100 "AAPL" 0)
  ∧ fst r = None.
Proof.
  intros m1 r. subst r.
  destruct (get_stock_data_failure_not_cached (world_at 61 Raises) "AAPL" m1
              eq_refl) as (Hcache & Hkeys & Hnone).
  split; [exact Hcache |]. split.
  - rewrite (Hkeys "AAPL"%string). reflexivity.
  - apply Hnone. reflexivity.
Defined.

(** C5, as the spec states it, at a concrete input: the quote fetched for
    "aapl" is stored under "aapl" and nothing is stored under "AAPL", so
    the call for "AAPL" half a minute later asks the provider again. *)
Lemma get_stock_data_key_is_case_sensitive :
  let r1 := get_stock_data (world_at 0 (two_sessions 95 100)) "aapl"
              new_StockDataManager in
  let r2 := get_stock_data (world_at 30 (two_sessions 95 100)) "AAPL"
              (snd r1) in
  fst r1 = Some (quote_100 "aapl" 0)
  ∧ cache (snd r1) !! "aapl"%string = Some (quote_100 "aapl" 0)
  ∧ cache (snd r1) !! "AAPL"%string = None
  ∧ fetched (snd r2) = ["aapl"; "AAPL"]%string
  ∧ fst r2 ≠ fst r1.
Proof.
  intros r1 r2. repeat split; try reflexivity.
  vm_compute. discriminate.
Qed.

(** C5, amended.  [get_stock_data] uses the symbol exactly as it is passed
    as the cache key, for the lookup and for the store; only the [symbol]
    field of a fetched quote is uppercased.  A call for [s] leaves every
    entry under another spelling untouched, its answer depends on no entry
    but that of [s], and what it returns is then stored under [s]. *)
Theorem get_stock_data_key_is_the_symbol_given (w : Env) (s : string)
    (m : StockDataManager) :
  (∀ s' : string,
     s' ≠ s -> cache (snd (get_stock_data w s m)) !! s' = cache m !! s')
  ∧ (∀ m' : StockDataManager,
       cache m' !! s = cache m !! s ->
       fst (get_stock_data w s m') = fst (get_stock_data w s m))
  ∧ (∀ q : StockData,
       fst (get_stock_data w s m) = Some q ->
       cache (snd (get_stock_data w s m)) !! s = Some q
       ∧ (cache_hit w s m = None -> symbol q = upper s)).
Proof.
  split; [| split].
  - intros s' Hne. now apply get_stock_data_other_keys.
  - intros m' Heq. unfold get_stock_data, cache_hit. rewrite Heq.
    destruct (cache m !! s) as [c |]; [destruct (_ <? _) |]; try reflexivity;
      destruct (provider w) as [| info hist]; try reflexivity;
      destruct (rev hist) as [| last_row earlier]; reflexivity.
  - intros q Hq. split; [now apply get_stock_data_returns_entry |].
    intros Hmiss. revert Hq. unfold get_stock_data. rewrite Hmiss.
    destruct (provider w) as [| info hist]; [discriminate |].
    destruct (rev hist) as [| last_row earlier]; [discriminate |].
    now intros [= <-].
Qed.

(** A cache that holds a quote under "AAPL": the call for "aapl" fetches,
    stores the new quote under "aapl" with its [symbol] field uppercased,
    and leaves the entry under "AAPL" as it was. *)
Lemma get_stock_data_key_is_the_symbol_given_witness :
  let m := {| cache := {[ "AAPL"%string := quote_100 "AAPL" 0 ]};
              fetched := ["AAPL"%string] |} in
  let r := get_stock_data (world_at 30 (two_sessions 95 100)) "aapl" m in
  cache (snd r) !! "AAPL"%string = Some (quote_100 "AAPL" 0)
  ∧ cache (snd r) !! "aapl"%string = Some (quote_100 "aapl" 30)
  ∧ symbol (quote_100 "aapl" 30) = "AAPL"%string.
Proof.
  intros m r. subst r.
  destruct (get_stock_data_key_is_the_symbol_given
              (world_at 30 (two_sessions 95 100)) "aapl" m)
    as (Hothers & _ & Hstored).
  destruct (Hstored (quote_100 "aapl" 30) eq_refl) as [Hentry Hsymbol].
  split; [| split].
  - rewrite (Hothers "AAPL"%string); [reflexivity | discriminate].
  - exact Hentry.
  - apply Hsymbol. reflexivity.
Defined.

(** C7. Whenever [get_stock_data] builds a quote from a fetched history
    whose prior-session close compares equal to 0, the quote's percent
    change is 0, whatever the current close: with two or more sessions the
    prior close is the close before the last, with one session it is the
    only close. *)
Theorem get_stock_data_percent_change_guard (w : Env) (s : string)
    (m : StockDataManager) (info : TickerInfo) (hist : list Bar)
    (prev_row last_row : Bar) :
  cache_hit w s m = None ->
  (Close prev_row =? 0)%float = true ->
  (provider w = Returns info (hist ++ [prev_row; last_row])
   ∨ (provider w = Returns info [last_row] ∧ prev_row = last_row)) ->
  ∃ q : StockData,
    fst (get_stock_data w s m) = Some q
    ∧ price q = Close last_row
    ∧ change_percent q = 0%float.
Proof.
  intros Hmiss Hzero Hprov. unfold get_stock_data. rewrite Hmiss.
  destruct Hprov as [-> | [-> ->]].
  - rewrite rev_app_distr. simpl.
    eexists. split; [reflexivity |]. split; [reflexivity |].
    simpl. unfold percent_change. now rewrite Hzero.
  - simpl. eexists. split; [reflexivity |]. split; [reflexivity |].
    simpl. unfold percent_change. now rewrite Hzero.
Qed.

(** The guard alone: a prior close of 0.0 or -0.0 gives 0 for every
    change, an infinite or NaN one included. *)
Lemma percent_change_zero_prior (change previous_price : float) :
  (previous_price =? 0)%float = true ->
  percent_change change previous_price = 0%float.
Proof. intros H. unfold percent_change. now rewrite H. Qed.

(** A prior close of 0 and a current close of 12.5. *)
Lemma get_stock_data_percent_change_guard_witness :
  ∃ q : StockData,
    fst (get_stock_data (world_at 0 (two_sessions 0 12.5)) "AAPL"
           new_StockDataManager) = Some q
    ∧ price q = 12.5%float
    ∧ change_percent q = 0%float.
Proof.
  apply (get_stock_data_percent_change_guard
           (world_at 0 (two_sessions 0 12.5)) "AAPL" new_StockDataManager
           no_info [] {| Close := 0; Volume := 1000 |}
           {| Close := 12.5; Volume := 1200 |}).
  - reflexivity.
  - reflexivity.
  - left. reflexivity.
Defined.

(** ** [calculate_portfolio_value] *)

(** With a running loop the [for] loop queues one task per holding, in
    order, behind what was already queued. *)
Lemma launch_tasks_running (holdings : list Holding) (queue : EventLoop) :
  launch_tasks holdings (Some queue)
  = Ok (Some (queue ++ map (λ h, GetStockData (h_symbol h)) holdings)).
Proof.
  revert queue. induction holdings as [| h rest IH]; intros queue; simpl.
  - now rewrite app_nil_r.
  - rewrite IH. now rewrite <- app_assoc.
Qed.

(** C2. For every portfolio and every stock data manager, whatever its
    cache holds, [calculate_portfolio_value] called under the running event
    loop returns 0 for the value, the cost, the P&L and the P&L percent.
    The tasks it created, one per holding, are still waiting in the loop's
    queue when it returns: none was awaited and no result was read. *)
Theorem calculate_portfolio_value_always_zero (pm : PortfolioManager)
    (stock_data_manager : StockDataManager) (queue : EventLoop) :
  calculate_portfolio_value pm stock_data_manager (Some queue)
  = Ok ({| total_value := Int 0; total_cost := Int 0; total_pnl := Int 0;
           total_pnl_percent := Int 0 |},
        Some (queue
              ++ map (λ h, GetStockData (h_symbol h)) (portfolio pm))).
Proof.
  unfold calculate_portfolio_value.
  now rewrite launch_tasks_running.
Qed.

(** Whenever the call returns at all, it returns the zeros. *)
Lemma calculate_portfolio_value_returns_zero (pm : PortfolioManager)
    (stock_data_manager : StockDataManager) (running running' : option EventLoop)
    (summary : Summary) :
  calculate_portfolio_value pm stock_data_manager running
  = Ok (summary, running') ->
  summary = zero_summary.
Proof.
  unfold calculate_portfolio_value.
  destruct (launch_tasks (portfolio pm) running); [| discriminate].
  now intros [= <- _].
Qed.

(** Called outside a running loop the method returns the zeros for an empty
    portfolio and otherwise stops at the first [asyncio.create_task]. *)
Lemma calculate_portfolio_value_without_loop (pm : PortfolioManager)
    (stock_data_manager : StockDataManager) :
  calculate_portfolio_value pm stock_data_manager None
  = match portfolio pm with
    | [] => Ok (zero_summary, None)
    | _ :: _ => Raise RuntimeError
    end.
Proof.
  unfold calculate_portfolio_value. now destruct (portfolio pm).
Qed.

(** C1, at the scenario of the spec: one holding of 10 AAPL shares bought
    at 150, and a fresh quote pricing AAPL at 165 in the manager's cache.
    [calculate_portfolio_value] returns 0 for the value and for the cost,
    where the claim has 1650 and 1500; the totals that
    [create_portfolio_content] computes for the same holding and quote are
    1650 and 1500. *)
Theorem calculate_portfolio_value_ignores_holdings :
  let pm := {| portfolio := [aapl_holding];
               watchlist := watchlist new_PortfolioManager |} in
  let sdm := {| cache := {[ "AAPL"%string := aapl_165 ]};
                fetched := ["AAPL"%string] |} in
  calculate_portfolio_value pm sdm (Some [])
  = Ok (zero_summary, Some [GetStockData "AAPL"])
  ∧ create_portfolio_content_totals (portfolio pm) (cache sdm) (Int 0, Int 0)
    = Ok (Float 1650, Float 1500)
  ∧ ((1650 - 1500) / 1500 * 100 = 10)%float.
Proof. repeat split; reflexivity. Qed.

(** ** [add_to_portfolio] *)

(** C6, as the spec states it, at concrete inputs: negative shares, a zero
    price, an infinite price and a NaN share count are all appended; the
    portfolio changes and nothing is rejected. *)
Lemma add_to_portfolio_accepts_invalid_numbers :
  portfolio (add_to_portfolio 0 "aapl" (-5) 150 new_PortfolioManager)
  = [ {| h_symbol := "AAPL"; h_shares := (-5); h_purchase_price := 150;
         h_purchase_date := 0 |} ]
  ∧ length (portfolio (add_to_portfolio 0 "aapl" 10 0 new_PortfolioManager))
    = 1%nat
  ∧ length (portfolio
              (add_to_portfolio 0 "aapl" 10 infinity new_PortfolioManager))
    = 1%nat
  ∧ length (portfolio
              (add_to_portfolio 0 "aapl" nan 150 new_PortfolioManager))
    = 1%nat
  ∧ portfolio new_PortfolioManager = [].
Proof. repeat split; reflexivity. Qed.

(** C6, amended.  [add_to_portfolio] checks nothing: for every symbol,
    every share count and every purchase price (positive or not, finite or
    not) it appends exactly one holding, with the symbol uppercased and the
    two numbers as given, and leaves the earlier holdings and the watchlist
    as they were. *)
Theorem add_to_portfolio_appends_unconditionally (now : datetime)
    (s : string) (shares purchase_price : float) (pm : PortfolioManager) :
  portfolio (add_to_portfolio now s shares purchase_price pm)
  = portfolio pm
    ++ [ {| h_symbol := upper s; h_shares := shares;
            h_purchase_price := purchase_price; h_purchase_date := now |} ]
  ∧ length (portfolio (add_to_portfolio now s shares purchase_price pm))
    = S (length (portfolio pm))
  ∧ watchlist (add_to_portfolio now s shares purchase_price pm)
    = watchlist pm.
Proof.
  split; [reflexivity |]. split; [| reflexivity].
  simpl. rewrite length_app. simpl. lia.
Qed.

(** ** The watchlist *)

Lemma list_count_absent (x : string) (l : list string) :
  x ∉ l -> list_count x l = 0%nat.
Proof.
  induction l as [| y rest IH]; [reflexivity |].
  intros Hnot. apply not_elem_of_cons in Hnot as [Hne Hrest]. simpl.
  destruct (decide (y = x)) as [-> | _]; [contradiction |]. now apply IH.
Qed.

Lemma list_count_snoc (x : string) (l : list string) :
  list_count x (l ++ [x]) = S (list_count x l).
Proof.
  induction l as [| y rest IH]; simpl.
  - destruct (decide (x = x)); [reflexivity | contradiction].
  - rewrite IH. lia.
Qed.

Lemma list_count_NoDup (x : string) (l : list string) :
  NoDup l -> x ∈ l -> list_count x l = 1%nat.
Proof.
  induction 1 as [| y rest Hnot Hnodup IH]; intros Hin.
  - now apply elem_of_nil in Hin.
  - simpl. destruct (decide (y = x)) as [-> | Hne].
    + now rewrite list_count_absent.
    + apply elem_of_cons in Hin as [-> | Hin]; [contradiction |].
      now rewrite IH.
Qed.

(** [list.remove] only drops an element. *)
Lemma list_remove_sublist (x : string) (l l' : list string) :
  list_remove x l = Some l' -> l' `sublist_of` l.
Proof.
  revert l'. induction l as [| y rest IH]; intros l'; simpl; [discriminate |].
  destruct (decide (y = x)) as [_ | _].
  - intros [= <-]. now apply sublist_cons.
  - destruct (list_remove x rest) as [rest' |]; [| discriminate].
    intros [= <-]. apply sublist_skip. now apply IH.
Qed.

(** [list.remove] finds what [in] found. *)
Lemma list_remove_present (x : string) (l : list string) :
  x ∈ l -> is_Some (list_remove x l).
Proof.
  induction l as [| y rest IH]; intros Hin.
  - now apply elem_of_nil in Hin.
  - simpl. destruct (decide (y = x)) as [_ | Hne]; [by eexists |].
    apply elem_of_cons in Hin as [-> | Hin]; [contradiction |].
    destruct (IH Hin) as [rest' ->]. by eexists.
Qed.

(** The guard of [remove_from_watchlist] keeps [list.remove] from raising. *)
Lemma remove_from_watchlist_never_raises (s : string) (pm : PortfolioManager) :
  ∃ pm' : PortfolioManager, remove_from_watchlist s pm = Ok pm'.
Proof.
  unfold remove_from_watchlist. case_bool_decide as Hin; [| by eexists].
  destruct (list_remove_present s (watchlist pm) Hin) as [wl ->]. by eexists.
Qed.

(** Every watchlist the program can hold has no duplicate and holds only
    strings that [upper] leaves as they are. *)
Lemma reachable_watchlist_canonical (pm : PortfolioManager) :
  reachable pm ->
  NoDup (watchlist pm) ∧ Forall (λ x, upper x = x) (watchlist pm).
Proof.
  induction 1 as [| now s shares purchase_price pm _ IH | s pm _ [IHn IHc]
                  | s pm pm' _ [IHn IHc] Hrem].
  - split.
    + apply (bool_decide_unpack _). vm_compute. exact I.
    + repeat constructor.
  - exact IH.
  - unfold add_to_watchlist. case_bool_decide as Hnew; [| by split]. simpl.
    split.
    + apply NoDup_app. split; [exact IHn |]. split; [| apply NoDup_singleton].
      intros x Hx Hx'. apply list_elem_of_singleton in Hx' as ->.
      contradiction.
    + apply Forall_app. split; [exact IHc |].
      constructor; [apply upper_idemp | constructor].
  - revert Hrem. unfold remove_from_watchlist.
    case_bool_decide as Hin; [| intros [= <-]; by split].
    destruct (list_remove s (watchlist pm)) as [wl |] eqn:Hwl; [| discriminate].
    intros [= <-]. simpl. apply list_remove_sublist in Hwl. split.
    + by eapply sublist_NoDup.
    + rewrite Forall_forall in IHc |- *. intros x Hx. apply IHc.
      by eapply elem_of_sublist.
Qed.

(** Adding a symbol whose uppercase form is stored changes nothing, for
    any watchlist. *)
Lemma add_to_watchlist_present (s : string) (pm : PortfolioManager) :
  upper s ∈ watchlist pm -> add_to_watchlist s pm = pm.
Proof.
  intros Hin. unfold add_to_watchlist.
  case_bool_decide as Hnew; [contradiction | reflexivity].
Qed.

(** After [add_to_watchlist s] the uppercase form of [s] is stored. *)
Lemma add_to_watchlist_stores_upper (s : string) (pm : PortfolioManager) :
  upper s ∈ watchlist (add_to_watchlist s pm).
Proof.
  unfold add_to_watchlist. case_bool_decide as Hnew; simpl.
  - apply elem_of_app. right. apply list_elem_of_singleton. reflexivity.
  - destruct (decide (upper s ∈ watchlist pm)); [assumption | contradiction].
Qed.

(** Removing a string that is not stored changes nothing and raises
    nothing, for any watchlist. *)
Lemma remove_from_watchlist_absent (s : string) (pm : PortfolioManager) :
  s ∉ watchlist pm -> remove_from_watchlist s pm = Ok pm.
Proof.
  intros Hnot. unfold remove_from_watchlist.
  case_bool_decide as Hin; [contradiction | reflexivity].
Qed.

(** C8. In every state of the [PortfolioManager]: adding a symbol that is
    in the watchlist leaves the manager unchanged; adding the same symbol a
    second time changes nothing, and after the two calls the watchlist
    holds the (uppercased) symbol exactly once, "AAPL" in particular; and
    removing a symbol that is not in the watchlist returns normally with
    the manager unchanged. *)
Theorem watchlist_add_remove_idempotent (pm : PortfolioManager) (s : string) :
  reachable pm ->
  (s ∈ watchlist pm -> add_to_watchlist s pm = pm)
  ∧ add_to_watchlist s (add_to_watchlist s pm) = add_to_watchlist s pm
  ∧ list_count (upper s)
      (watchlist (add_to_watchlist s (add_to_watchlist s pm))) = 1%nat
  ∧ list_count "AAPL"
      (watchlist (add_to_watchlist "AAPL" (add_to_watchlist "AAPL" pm)))
    = 1%nat
  ∧ (s ∉ watchlist pm -> remove_from_watchlist s pm = Ok pm).
Proof.
  intros Hreach.
  assert (Htwice : ∀ x, add_to_watchlist x (add_to_watchlist x pm)
                        = add_to_watchlist x pm).
  { intros x. apply add_to_watchlist_present, add_to_watchlist_stores_upper. }
  assert (Honce : ∀ x, list_count (upper x)
                         (watchlist (add_to_watchlist x pm)) = 1%nat).
  { intros x.
    apply list_count_NoDup; [| apply add_to_watchlist_stores_upper].
    apply reachable_watchlist_canonical. now constructor. }
  split; [| split; [| split; [| split]]].
  - intros Hin. apply add_to_watchlist_present.
    destruct (reachable_watchlist_canonical pm Hreach) as [_ Hcanon].
    rewrite Forall_forall in Hcanon. now rewrite (Hcanon s Hin).
  - apply Htwice.
  - rewrite Htwice. apply Honce.
  - rewrite Htwice. apply (Honce "AAPL"%string).
  - apply remove_from_watchlist_absent.
Qed.

(** On the initial watchlist: "AAPL" is there already, "IBM" is not. *)
Lemma watchlist_add_remove_idempotent_witness :
  add_to_watchlist "AAPL" new_PortfolioManager = new_PortfolioManager
  ∧ list_count "AAPL"
      (watchlist (add_to_watchlist "AAPL"
                    (add_to_watchlist "AAPL" new_PortfolioManager))) = 1%nat
  ∧ remove_from_watchlist "IBM" new_PortfolioManager
    = Ok new_PortfolioManager.
Proof.
  destruct (watchlist_add_remove_idempotent new_PortfolioManager "AAPL"
              reachable_new) as (Hadd & _ & _ & Hcount & _).
  destruct (watchlist_add_remove_idempotent new_PortfolioManager "IBM"
              reachable_new) as (_ & _ & _ & _ & Hremove).
  split; [| split].
  - apply Hadd. apply (bool_decide_unpack _). vm_compute. exact I.
  - exact Hcount.
  - apply Hremove. apply (bool_decide_unpack _). vm_compute. exact I.
Defined.

(** C10. [add_to_watchlist] stores the uppercase form of its argument,
    whereas [remove_from_watchlist] looks for its argument as it is
    written.  So in every state of the [PortfolioManager] whose watchlist
    holds a symbol [u], removing a spelling [s] of it ([upper s = u]) that
    is not [u] itself changes nothing, and [u] stays in the watchlist. *)
Theorem remove_from_watchlist_is_case_sensitive (pm : PortfolioManager)
    (u s : string) :
  reachable pm ->
  u ∈ watchlist pm ->
  upper s = u ->
  s ≠ u ->
  upper s ∈ watchlist (add_to_watchlist s pm)
  ∧ add_to_watchlist s pm = pm
  ∧ remove_from_watchlist s pm = Ok pm
  ∧ u ∈ watchlist pm.
Proof.
  intros Hreach Hin Hup Hne.
  split; [apply add_to_watchlist_stores_upper |].
  split; [apply add_to_watchlist_present; now rewrite Hup |].
  split; [| exact Hin].
  apply remove_from_watchlist_absent. intros Hs.
  destruct (reachable_watchlist_canonical pm Hreach) as [_ Hcanon].
  rewrite Forall_forall in Hcanon. apply Hne.
  now rewrite <- (Hcanon s Hs).
Qed.

(** Removing "aapl" from the initial watchlist leaves "AAPL" in it. *)
Lemma remove_from_watchlist_is_case_sensitive_witness :
  remove_from_watchlist "aapl" new_PortfolioManager = Ok new_PortfolioManager
  ∧ In "AAPL"%string (watchlist new_PortfolioManager).
Proof.
  destruct (remove_from_watchlist_is_case_sensitive new_PortfolioManager
              "AAPL" "aapl" reachable_new) as (_ & _ & Hremove & Hstays).
  - apply (bool_decide_unpack _). vm_compute. exact I.
  - reflexivity.
  - discriminate.
  - split; [exact Hremove |]. apply list_elem_of_In. exact Hstays.
Defined.

(** When the uppercase form is not stored yet, it is appended. *)
Lemma add_to_watchlist_absent (s : string) (pm : PortfolioManager) :
  upper s ∉ watchlist pm ->
  watchlist (add_to_watchlist s pm) = watchlist pm ++ [upper s].
Proof.
  intros Hnot. unfold add_to_watchlist.
  case_bool_decide as Hnew; [reflexivity | contradiction].
Qed.

(** ** The refresh loop *)

(** A call that returns [None] leaves the whole snapshot as it was. *)
Lemma refresh_symbol_failure (w : Env) (s : string)
    (st : StockDataManager * gmap string StockData) :
  fst (get_stock_data w s (fst st)) = None ->
  snd (refresh_symbol w s st) = snd st.
Proof.
  unfold refresh_symbol.
  destruct (get_stock_data w s (fst st)) as [data sm]. simpl.
  now intros ->.
Qed.

(** A call that returns a quote replaces the entry of its symbol and no
    other. *)
Lemma refresh_symbol_success (w : Env) (s : string) (d : StockData)
    (st : StockDataManager * gmap string StockData) :
  fst (get_stock_data w s (fst st)) = Some d ->
  snd (refresh_symbol w s st) = <[s := d]> (snd st).
Proof.
  unfold refresh_symbol.
  destruct (get_stock_data w s (fst st)) as [data sm]. simpl.
  now intros ->.
Qed.

Lemma refresh_symbol_manager (w : Env) (s : string)
    (st : StockDataManager * gmap string StockData) :
  fst (refresh_symbol w s st) = snd (get_stock_data w s (fst st)).
Proof.
  unfold refresh_symbol. now destruct (get_stock_data w s (fst st)).
Qed.

(** Two loops in a row are one loop over the concatenated symbols. *)
Lemma refresh_symbols_app (E : nat -> Env) (l1 l2 : list string) :
  ∀ (i : nat) (st : StockDataManager * gmap string StockData),
    refresh_symbols E i (l1 ++ l2) st
    = refresh_symbols E (i + length l1) l2 (refresh_symbols E i l1 st).
Proof.
  induction l1 as [| s rest IH]; intros i st; simpl.
  - now rewrite Nat.add_0_r.
  - rewrite IH. now rewrite Nat.add_succ_r.
Qed.

Lemma update_market_data_one_loop (E : nat -> Env) (app : App) :
  current_data (update_market_data E app)
  = snd (refresh_symbols E 0 (tracked_symbols app)
           (stock_manager app, current_data app)).
Proof.
  unfold update_market_data, tracked_symbols.
  now rewrite refresh_symbols_app.
Qed.

(** The calls of a loop are made for the symbols of the loop, in order. *)
Lemma call_results_symbols (E : nat -> Env) (symbols : list string) :
  ∀ (i : nat) (sm : StockDataManager),
    map fst (call_results E i symbols sm) = symbols.
Proof.
  induction symbols as [| s rest IH]; intros i sm; simpl;
    [reflexivity | now rewrite IH].
Qed.

(** After a loop, an entry of the snapshot is either the one from before
    the loop or a quote that a call for that very symbol returned. *)
Lemma refresh_symbols_entry (E : nat -> Env) (symbols : list string)
    (k : string) :
  ∀ (i : nat) (sm : StockDataManager) (cd : gmap string StockData),
    snd (refresh_symbols E i symbols (sm, cd)) !! k = cd !! k
    ∨ ∃ d : StockData,
        (k, Some d) ∈ call_results E i symbols sm
        ∧ snd (refresh_symbols E i symbols (sm, cd)) !! k = Some d.
Proof.
  induction symbols as [| s rest IH]; intros i sm cd; simpl; [by left |].
  pose proof (refresh_symbol_manager (E i) s (sm, cd)) as Hsm.
  destruct (refresh_symbol (E i) s (sm, cd)) as [sm1 cd1] eqn:Hstep.
  simpl in Hsm. subst sm1.
  destruct (IH (S i) (snd (get_stock_data (E i) s sm)) cd1)
    as [Hsame | (d & Hin & Hd)].
  - rewrite Hsame.
    destruct (fst (get_stock_data (E i) s sm)) as [d |] eqn:Hres.
    + pose proof (refresh_symbol_success (E i) s d (sm, cd) Hres) as Hcd.
      rewrite Hstep in Hcd. simpl in Hcd. subst cd1.
      destruct (decide (s = k)) as [-> | Hne].
      * right. exists d. split; [apply elem_of_cons; by left |].
        apply lookup_insert_eq.
      * left. now apply lookup_insert_ne.
    + pose proof (refresh_symbol_failure (E i) s (sm, cd) Hres) as Hcd.
      rewrite Hstep in Hcd. simpl in Hcd. subst cd1. by left.
  - right. exists d. split; [apply elem_of_cons; by right | exact Hd].
Qed.

(** C9. In every run of [update_market_data] over the tracked symbols (the
    market indices, then the watchlist): a call of [get_stock_data] that
    fails leaves the whole snapshot [current_data] as it was; a symbol
    whose calls all failed in the run, and a symbol that is not tracked,
    keep the entry they had (or stay absent); every entry after the run is
    either the entry from before or a quote returned for that symbol in
    this run; and no symbol that had an entry is left without one. *)
Theorem update_market_data_incremental (E : nat -> Env) (app : App)
    (k : string) :
  (∀ (w : Env) (s : string) (st : StockDataManager * gmap string StockData),
     fst (get_stock_data w s (fst st)) = None ->
     snd (refresh_symbol w s st) = snd st)
  ∧ map fst (update_results E app) = tracked_symbols app
  ∧ ((∀ r : option StockData, (k, r) ∈ update_results E app -> r = None) ->
     current_data (update_market_data E app) !! k = current_data app !! k)
  ∧ (current_data (update_market_data E app) !! k = current_data app !! k
     ∨ ∃ d : StockData,
         (k, Some d) ∈ update_results E app
         ∧ current_data (update_market_data E app) !! k = Some d)
  ∧ dom (current_data app) ⊆ dom (current_data (update_market_data E app)).
Proof.
  assert (Hentry : ∀ k' : string,
    current_data (update_market_data E app) !! k' = current_data app !! k'
    ∨ ∃ d : StockData,
        (k', Some d) ∈ update_results E app
        ∧ current_data (update_market_data E app) !! k' = Some d).
  { intros k'. rewrite update_market_data_one_loop.
    apply refresh_symbols_entry. }
  split; [exact refresh_symbol_failure |].
  split; [apply call_results_symbols |].
  split; [| split; [apply Hentry |]].
  - intros Hfailed. destruct (Hentry k) as [Hsame | (d & Hin & _)];
      [exact Hsame |].
    now apply Hfailed in Hin.
  - intros k' Hk'. apply elem_of_dom in Hk'. apply elem_of_dom.
    destruct (Hentry k') as [-> | (d & _ & ->)]; [exact Hk' | by eexists].
Qed.

(** The provider fails for "^DJI" only: the entry of "^DJI" is the one from
    before the run, and so is the entry of the untracked "IBM", while
    "^GSPC" gets its first entry. *)
Lemma update_market_data_incremental_witness :
  current_data (update_market_data dji_down sample_app) !! "^DJI"%string
  = Some (quote_100 "^DJI" 0)
  ∧ current_data (update_market_data dji_down sample_app) !! "IBM"%string
    = Some (quote_100 "IBM" 0)
  ∧ current_data (update_market_data dji_down sample_app) !! "^GSPC"%string
    = Some (quote_100 "^GSPC" 120).
Proof.
  destruct (update_market_data_incremental dji_down sample_app "^DJI")
    as (_ & _ & Hdji & _ & _).
  destruct (update_market_data_incremental dji_down sample_app "IBM")
    as (_ & _ & Hibm & _ & _).
  split; [| split].
  - rewrite Hdji; [reflexivity |].
    intros r Hin. apply list_elem_of_In in Hin. vm_compute in Hin.
    repeat (destruct Hin as [Hin | Hin]; [try discriminate Hin |]);
      [now injection Hin | contradiction].
  - rewrite Hibm; [reflexivity |].
    intros r Hin. apply list_elem_of_In in Hin. vm_compute in Hin.
    repeat (destruct Hin as [Hin | Hin]; [try discriminate Hin |]);
      contradiction.
  - reflexivity.
Defined.

(** * Further properties of the code *)

(** ** The cache over time *)

(** A call asks the provider at most once, and for its own symbol. *)
Lemma get_stock_data_fetched (w : Env) (s : string) (m : StockDataManager) :
  fetched (snd (get_stock_data w s m)) = fetched m
  ∨ fetched (snd (get_stock_data w s m)) = fetched m ++ [s].
Proof.
  destruct (cache_hit w s m) as [c |] eqn:Hhit.
  - left. now rewrite (get_stock_data_hit w s m c Hhit).
  - right. now apply get_stock_data_miss_fetches.
Qed.

(** An entry stored under [s] is still there, old or replaced, after a call
    for [s]. *)
Lemma get_stock_data_keeps_own_entry (w : Env) (s : string)
    (m : StockDataManager) :
  is_Some (cache m !! s) -> is_Some (cache (snd (get_stock_data w s m)) !! s).
Proof.
  intros Hsome. unfold get_stock_data.
  destruct (cache_hit w s m) as [c |]; [exact Hsome |].
  destruct (provider w) as [| info hist]; [exact Hsome |].
  destruct (rev hist) as [| last_row earlier]; [exact Hsome |].
  simpl. rewrite lookup_insert_eq. by eexists.
Qed.

(** X1. [get_stock_data] never evicts: every key of the cache is still a
    key after the call, however stale its entry, and the only key a call
    for [s] can add is [s]. *)
Theorem get_stock_data_never_evicts (w : Env) (s : string)
    (m : StockDataManager) :
  dom (cache m) ⊆ dom (cache (snd (get_stock_data w s m)))
  ∧ dom (cache (snd (get_stock_data w s m))) ⊆ {[ s ]} ∪ dom (cache m).
Proof.
  split; intros k Hk.
  - apply elem_of_dom. apply elem_of_dom in Hk.
    destruct (decide (k = s)) as [-> | Hne].
    + now apply get_stock_data_keeps_own_entry.
    + now rewrite get_stock_data_other_keys.
  - destruct (decide (k = s)) as [-> | Hne]; [set_solver |].
    apply elem_of_union. right. apply elem_of_dom. apply elem_of_dom in Hk.
    now rewrite get_stock_data_other_keys in Hk.
Qed.

(** X2. When every cached quote carries the uppercase form of its key, the
    same holds after a call of [get_stock_data], and the quote the call
    returns for [s] carries [upper s], whether it was fetched or cached. *)
Theorem get_stock_data_symbol_field (w : Env) (s : string)
    (m : StockDataManager) :
  cache_keys_match m ->
  cache_keys_match (snd (get_stock_data w s m))
  ∧ (∀ q : StockData,
       fst (get_stock_data w s m) = Some q -> symbol q = upper s).
Proof.
  intros Hinv.
  assert (Hret : ∀ q : StockData,
            fst (get_stock_data w s m) = Some q -> symbol q = upper s).
  { intros q. unfold get_stock_data.
    destruct (cache_hit w s m) as [c |] eqn:Hhit; simpl.
    - intros [= ->]. apply Hinv. now apply (cache_hit_lookup w).
    - destruct (provider w) as [| info hist]; [discriminate |].
      destruct (rev hist) as [| last_row earlier]; [discriminate |].
      now intros [= <-]. }
  split; [| exact Hret].
  intros k d Hk. destruct (decide (k = s)) as [-> | Hne].
  - destruct (fst (get_stock_data w s m)) as [q |] eqn:Hres.
    + rewrite (get_stock_data_returns_entry w s m q Hres) in Hk.
      injection Hk as <-. now apply Hret.
    + rewrite (get_stock_data_none_keeps_cache w s m Hres) in Hk.
      now apply Hinv.
  - rewrite get_stock_data_other_keys in Hk by exact Hne. now apply Hinv.
Qed.

(** A cache holding one quote for "AAPL", asked for "msft". *)
Lemma get_stock_data_symbol_field_witness :
  let m := {| cache := {[ "AAPL"%string := quote_100 "AAPL" 0 ]};
              fetched := ["AAPL"%string] |} in
  let r := get_stock_data (world_at 30 (two_sessions 95 100)) "msft" m in
  cache_keys_match (snd r)
  ∧ symbol (quote_100 "msft" 30) = "MSFT"%string.
Proof.
  intros m r. subst r.
  assert (Hm : cache_keys_match m).
  { intros k d Hk. unfold m in Hk. simpl in Hk.
    apply lookup_singleton_Some in Hk as [<- <-]. reflexivity. }
  destruct (get_stock_data_symbol_field
              (world_at 30 (two_sessions 95 100)) "msft" m Hm)
    as [Hinv Hret].
  split; [exact Hinv |]. apply Hret. reflexivity.
Defined.

(** ** A whole run of [update_market_data] *)

Lemma update_market_data_manager_one_loop (E : nat -> Env) (app : App) :
  stock_manager (update_market_data E app)
  = fst (refresh_symbols E 0 (tracked_symbols app)
           (stock_manager app, current_data app)).
Proof.
  unfold update_market_data, tracked_symbols.
  now rewrite refresh_symbols_app.
Qed.

(** The requests of a loop are made in the order of its symbols, at most
    one per symbol. *)
Lemma refresh_symbols_requests (E : nat -> Env) (symbols : list string) :
  ∀ (i : nat) (sm : StockDataManager) (cd : gmap string StockData),
    ∃ requests : list string,
      fetched (fst (refresh_symbols E i symbols (sm, cd)))
      = fetched sm ++ requests
      ∧ requests `sublist_of` symbols.
Proof.
  induction symbols as [| s rest IH]; intros i sm cd; simpl.
  - exists []. split; [now rewrite app_nil_r | constructor].
  - pose proof (refresh_symbol_manager (E i) s (sm, cd)) as Hsm.
    destruct (refresh_symbol (E i) s (sm, cd)) as [sm1 cd1].
    simpl in Hsm. subst sm1.
    destruct (IH (S i) (snd (get_stock_data (E i) s sm)) cd1)
      as (requests & -> & Hsub).
    destruct (get_stock_data_fetched (E i) s sm) as [-> | ->].
    + exists requests. split; [reflexivity | now apply sublist_cons].
    + exists (s :: requests). split.
      * now rewrite <- app_assoc.
      * now apply sublist_skip.
Qed.

(** X3. One run of [update_market_data] only appends to the list of
    provider requests, and what it appends is a subsequence of the tracked
    symbols (the four indices, then the watchlist): at most one request per
    tracked symbol, in that order, and none for any other symbol. *)
Theorem update_market_data_requests (E : nat -> Env) (app : App) :
  ∃ requests : list string,
    fetched (stock_manager (update_market_data E app))
    = fetched (stock_manager app) ++ requests
    ∧ requests `sublist_of` tracked_symbols app
    ∧ (length requests <= 4 + length (watchlist (portfolio_manager app)))%nat.
Proof.
  rewrite update_market_data_manager_one_loop.
  destruct (refresh_symbols_requests E (tracked_symbols app) 0
              (stock_manager app) (current_data app))
    as (requests & Hfetched & Hsub).
  exists requests. split; [exact Hfetched |]. split; [exact Hsub |].
  apply sublist_length in Hsub. unfold tracked_symbols in Hsub.
  rewrite length_app in Hsub. exact Hsub.
Qed.

(** A loop over symbols that all have a fresh entry leaves the manager as
    it is and copies those entries into the snapshot. *)
Lemma refresh_symbols_all_fresh (E : nat -> Env) (sm : StockDataManager)
    (symbols : list string) :
  (∀ k : string, k ∈ symbols ->
     ∃ d : StockData,
       cache sm !! k = Some d
       ∧ ∀ i : nat, now_check (E i) - last_updated d < cache_duration) ->
  ∀ (i : nat) (cd : gmap string StockData),
    fst (refresh_symbols E i symbols (sm, cd)) = sm
    ∧ ∀ k : string,
        snd (refresh_symbols E i symbols (sm, cd)) !! k
        = if decide (k ∈ symbols) then cache sm !! k else cd !! k.
Proof.
  induction symbols as [| s rest IH]; intros Hfresh i cd; simpl.
  - split; [reflexivity |]. intros k.
    destruct (decide (k ∈ [])) as [Hin | _]; [| reflexivity].
    now apply elem_of_nil in Hin.
  - destruct (Hfresh s) as (d & Hd & Hage); [apply elem_of_cons; by left |].
    assert (Hhit : cache_hit (E i) s sm = Some d).
    { unfold cache_hit. rewrite Hd.
      specialize (Hage i). now apply Z.ltb_lt in Hage as ->. }
    unfold refresh_symbol. simpl.
    rewrite (get_stock_data_hit (E i) s sm d Hhit).
    destruct (IH (λ k Hk, Hfresh k (proj2 (elem_of_cons _ _ _) (or_intror Hk)))
                (S i) (<[s := d]> cd)) as [Hsm Hcd].
    split; [exact Hsm |]. intros k. rewrite Hcd.
    destruct (decide (k ∈ rest)) as [Hin | Hnotin].
    + destruct (decide (k ∈ s :: rest)) as [_ | Hno]; [reflexivity |].
      exfalso. apply Hno. apply elem_of_cons. by right.
    + destruct (decide (k = s)) as [-> | Hne].
      * rewrite lookup_insert_eq.
        destruct (decide (s ∈ s :: rest)) as [_ | Hno]; [now rewrite Hd |].
        exfalso. apply Hno. apply elem_of_cons. by left.
      * rewrite lookup_insert_ne by congruence.
        destruct (decide (k ∈ s :: rest)) as [Hin | _]; [| reflexivity].
        apply elem_of_cons in Hin as [-> | Hin]; contradiction.
Qed.

(** X4. When every tracked symbol has a cache entry that is fresh at every
    clock reading of the run, [update_market_data] makes no provider
    request and leaves the [StockDataManager] as it is, and afterwards the
    snapshot holds, for each tracked symbol, exactly the cached quote;
    entries of other symbols are untouched. *)
Theorem update_market_data_all_fresh (E : nat -> Env) (app : App) :
  (∀ k : string, k ∈ tracked_symbols app ->
     ∃ d : StockData,
       cache (stock_manager app) !! k = Some d
       ∧ ∀ i : nat, now_check (E i) - last_updated d < cache_duration) ->
  stock_manager (update_market_data E app) = stock_manager app
  ∧ (∀ k : string, k ∈ tracked_symbols app ->
       current_data (update_market_data E app) !! k
       = cache (stock_manager app) !! k)
  ∧ (∀ k : string, k ∉ tracked_symbols app ->
       current_data (update_market_data E app) !! k = current_data app !! k).
Proof.
  intros Hfresh.
  destruct (refresh_symbols_all_fresh E (stock_manager app)
              (tracked_symbols app) Hfresh 0 (current_data app))
    as [Hsm Hcd].
  rewrite update_market_data_manager_one_loop, update_market_data_one_loop.
  split; [exact Hsm |]. split; intros k Hk; rewrite Hcd.
  - destruct (decide (k ∈ tracked_symbols app)); [reflexivity | contradiction].
  - destruct (decide (k ∈ tracked_symbols app)); [contradiction | reflexivity].
Qed.

(** Half a minute after every tracked symbol was fetched, with the provider
    down: no request, and "AAPL" enters the snapshot from the cache. *)
Lemma update_market_data_all_fresh_witness :
  stock_manager (update_market_data provider_down warm_app)
  = stock_manager warm_app
  ∧ current_data (update_market_data provider_down warm_app) !! "AAPL"%string
    = Some (quote_100 "AAPL" 0).
Proof.
  destruct (update_market_data_all_fresh provider_down warm_app)
    as (Hsm & Htracked & _).
  - intros k Hk. apply list_elem_of_In in Hk. simpl in Hk.
    destruct Hk as [<- | [<- | [<- | [<- | [<- | []]]]]];
      eexists; (split; [reflexivity | intros i; reflexivity]).
  - split; [exact Hsm |]. rewrite Htracked; [reflexivity |].
    apply (bool_decide_unpack _). vm_compute. exact I.
Defined.

(** Where the snapshot and the cache agree on a symbol before a loop, they
    agree on it after the loop. *)
Lemma refresh_symbols_keeps_agreement (E : nat -> Env)
    (symbols : list string) (k : string) :
  ∀ (i : nat) (sm : StockDataManager) (cd : gmap string StockData),
    cd !! k = cache sm !! k ->
    snd (refresh_symbols E i symbols (sm, cd)) !! k
    = cache (fst (refresh_symbols E i symbols (sm, cd))) !! k.
Proof.
  induction symbols as [| s rest IH]; intros i sm cd Hagree; simpl;
    [exact Hagree |].
  pose proof (refresh_symbol_manager (E i) s (sm, cd)) as Hsm.
  destruct (refresh_symbol (E i) s (sm, cd)) as [sm1 cd1] eqn:Hstep.
  simpl in Hsm. subst sm1. apply IH.
  destruct (fst (get_stock_data (E i) s sm)) as [d |] eqn:Hres.
  - pose proof (refresh_symbol_success (E i) s d (sm, cd) Hres) as Hcd.
    rewrite Hstep in Hcd. simpl in Hcd. subst cd1.
    destruct (decide (s = k)) as [-> | Hne].
    + rewrite lookup_insert_eq.
      now rewrite (get_stock_data_returns_entry (E i) k sm d Hres).
    + rewrite lookup_insert_ne by exact Hne.
      rewrite get_stock_data_other_keys by congruence. exact Hagree.
  - pose proof (refresh_symbol_failure (E i) s (sm, cd) Hres) as Hcd.
    rewrite Hstep in Hcd. simpl in Hcd. subst cd1.
    now rewrite (get_stock_data_none_keeps_cache (E i) s sm Hres).
Qed.

(** A symbol for which some call of the loop returned a quote has the same
    entry in the snapshot and in the cache after the loop. *)
Lemma refresh_symbols_agree_on_success (E : nat -> Env)
    (symbols : list string) (k : string) (d : StockData) :
  ∀ (i : nat) (sm : StockDataManager) (cd : gmap string StockData),
    (k, Some d) ∈ call_results E i symbols sm ->
    snd (refresh_symbols E i symbols (sm, cd)) !! k
    = cache (fst (refresh_symbols E i symbols (sm, cd))) !! k.
Proof.
  induction symbols as [| s rest IH]; intros i sm cd Hin; simpl in *.
  - now apply elem_of_nil in Hin.
  - pose proof (refresh_symbol_manager (E i) s (sm, cd)) as Hsm.
    destruct (refresh_symbol (E i) s (sm, cd)) as [sm1 cd1] eqn:Hstep.
    simpl in Hsm. subst sm1.
    apply elem_of_cons in Hin as [[= <- Hres] | Hin]; [| now apply IH].
    apply refresh_symbols_keeps_agreement. symmetry in Hres.
    pose proof (refresh_symbol_success (E i) k d (sm, cd) Hres) as Hcd.
    rewrite Hstep in Hcd. simpl in Hcd. subst cd1.
    rewrite lookup_insert_eq.
    now rewrite (get_stock_data_returns_entry (E i) k sm d Hres).
Qed.

(** The cache keeps its keys through a loop. *)
Lemma refresh_symbols_never_evicts (E : nat -> Env) (symbols : list string) :
  ∀ (i : nat) (sm : StockDataManager) (cd : gmap string StockData),
    dom (cache sm) ⊆ dom (cache (fst (refresh_symbols E i symbols (sm, cd)))).
Proof.
  induction symbols as [| s rest IH]; intros i sm cd; simpl; [done |].
  pose proof (refresh_symbol_manager (E i) s (sm, cd)) as Hsm.
  destruct (refresh_symbol (E i) s (sm, cd)) as [sm1 cd1].
  simpl in Hsm. subst sm1.
  etransitivity; [| apply IH].
  intros k Hk. apply elem_of_dom. apply elem_of_dom in Hk.
  destruct (decide (k = s)) as [-> | Hne].
  - now apply get_stock_data_keeps_own_entry.
  - now rewrite get_stock_data_other_keys.
Qed.

(** X5. After a run of [update_market_data], every symbol for which a call
    of the run returned a quote has an entry in the snapshot, and that
    entry is the very quote the cache holds under that symbol: snapshot and
    cache do not drift apart. *)
Theorem update_market_data_snapshot_matches_cache (E : nat -> Env)
    (app : App) (k : string) (d : StockData) :
  (k, Some d) ∈ update_results E app ->
  is_Some (current_data (update_market_data E app) !! k)
  ∧ current_data (update_market_data E app) !! k
    = cache (stock_manager (update_market_data E app)) !! k.
Proof.
  intros Hin.
  assert (Hagree : current_data (update_market_data E app) !! k
                   = cache (stock_manager (update_market_data E app)) !! k).
  { rewrite update_market_data_manager_one_loop, update_market_data_one_loop.
    now apply (refresh_symbols_agree_on_success E _ k d). }
  split; [| exact Hagree].
  rewrite update_market_data_one_loop.
  destruct (refresh_symbols_entry E (tracked_symbols app) k 0
              (stock_manager app) (current_data app))
    as [Hsame | (d' & _ & ->)]; [| by eexists].
  rewrite <- update_market_data_one_loop, Hagree.
  rewrite update_market_data_manager_one_loop.
  clear Hsame Hagree. revert Hin. unfold update_results.
  generalize (tracked_symbols app) 0%nat (stock_manager app)
    (current_data app).
  induction l as [| s rest IH]; intros i sm cd Hin; simpl in *.
  - now apply elem_of_nil in Hin.
  - pose proof (refresh_symbol_manager (E i) s (sm, cd)) as Hsm.
    destruct (refresh_symbol (E i) s (sm, cd)) as [sm1 cd1].
    simpl in Hsm. subst sm1.
    apply elem_of_cons in Hin as [[= <- Hres] | Hin]; [| now apply IH].
    apply elem_of_dom. apply (refresh_symbols_never_evicts E rest (S i) _ cd1).
    apply elem_of_dom. symmetry in Hres.
    rewrite (get_stock_data_returns_entry (E i) k sm d Hres). by eexists.
Qed.

(** In the run where only "^DJI" fails, "^GSPC" was answered. *)
Lemma update_market_data_snapshot_matches_cache_witness :
  is_Some (current_data (update_market_data dji_down sample_app)
           !! "^GSPC"%string)
  ∧ current_data (update_market_data dji_down sample_app) !! "^GSPC"%string
    = cache (stock_manager (update_market_data dji_down sample_app))
      !! "^GSPC"%string.
Proof.
  apply (update_market_data_snapshot_matches_cache dji_down sample_app
           "^GSPC" (quote_100 "^GSPC" 120)).
  apply list_elem_of_In. vm_compute. left. reflexivity.
Defined.

(** ** The ledger over time *)

(** What [list.remove] does when it succeeds: it cuts the first occurrence
    out. *)
Lemma list_remove_splits (x : string) (l l' : list string) :
  list_remove x l = Some l' ->
  ∃ before after : list string,
    l = before ++ x :: after ∧ l' = before ++ after ∧ x ∉ before.
Proof.
  revert l'. induction l as [| y rest IH]; intros l'; simpl; [discriminate |].
  destruct (decide (y = x)) as [-> | Hne].
  - intros [= <-]. exists [], rest. repeat split. apply not_elem_of_nil.
  - destruct (list_remove x rest) as [rest' |]; [| discriminate].
    intros [= <-]. destruct (IH rest' eq_refl) as (b & a & -> & -> & Hnot).
    exists (y :: b), a. repeat split.
    apply not_elem_of_cons. split; [congruence | exact Hnot].
Qed.

Lemma list_remove_last (x : string) (l : list string) :
  x ∉ l -> list_remove x (l ++ [x]) = Some l.
Proof.
  induction l as [| y rest IH]; intros Hnot; simpl.
  - destruct (decide (x = x)); [reflexivity | contradiction].
  - apply not_elem_of_cons in Hnot as [Hne Hrest].
    destruct (decide (y = x)) as [-> | _]; [contradiction |].
    now rewrite (IH Hrest).
Qed.

(** X6. Adding a symbol whose uppercase form is not yet in the watchlist
    and then removing that uppercase form gives back the manager as it was
    before the two calls: same watchlist in the same order, same
    holdings. *)
Theorem add_then_remove_restores (s : string) (pm : PortfolioManager) :
  upper s ∉ watchlist pm ->
  remove_from_watchlist (upper s) (add_to_watchlist s pm) = Ok pm.
Proof.
  intros Hnot. unfold add_to_watchlist.
  rewrite bool_decide_eq_true_2 by exact Hnot.
  unfold remove_from_watchlist. simpl.
  rewrite bool_decide_eq_true_2.
  - rewrite (list_remove_last _ _ Hnot). now destruct pm.
  - apply elem_of_app. right. apply list_elem_of_singleton. reflexivity.
Qed.

(** "ibm" is not on the initial watchlist. *)
Lemma add_then_remove_restores_witness :
  remove_from_watchlist "IBM" (add_to_watchlist "ibm" new_PortfolioManager)
  = Ok new_PortfolioManager.
Proof.
  apply (add_then_remove_restores "ibm" new_PortfolioManager).
  apply (bool_decide_unpack _). vm_compute. exact I.
Defined.

(** X7. In every state of the [PortfolioManager], removing a symbol that is
    in the watchlist returns normally and really removes it: the symbol is
    no longer in the watchlist, which is one shorter, every other symbol is
    kept, and the holdings are untouched. *)
Theorem remove_from_watchlist_removes (pm : PortfolioManager) (s : string) :
  reachable pm ->
  s ∈ watchlist pm ->
  ∃ pm' : PortfolioManager,
    remove_from_watchlist s pm = Ok pm'
    ∧ (s ∉ watchlist pm')
    ∧ (∀ x : string, x ≠ s -> (x ∈ watchlist pm' ↔ x ∈ watchlist pm))
    ∧ length (watchlist pm) = S (length (watchlist pm'))
    ∧ portfolio pm' = portfolio pm.
Proof.
  intros Hreach Hin.
  destruct (reachable_watchlist_canonical pm Hreach) as [Hnodup _].
  unfold remove_from_watchlist. case_bool_decide; [| contradiction].
  destruct (list_remove_present s (watchlist pm) Hin) as [wl Hwl].
  rewrite Hwl. eexists. split; [reflexivity |]. simpl.
  destruct (list_remove_splits s _ _ Hwl) as (b & a & Hl & -> & Hb).
  rewrite Hl in Hnodup |- *.
  apply NoDup_app in Hnodup as (_ & Hdisj & Ha).
  apply NoDup_cons in Ha as [Ha _].
  split; [| split; [| split; [| reflexivity]]].
  - intros Hs. apply elem_of_app in Hs as [Hs | Hs]; contradiction.
  - intros x Hne. rewrite !elem_of_app, elem_of_cons. split.
    + intros [Hx | Hx]; [by left | right; by right].
    + intros [Hx | [Hx | Hx]]; [by left | contradiction | by right].
  - rewrite !length_app. simpl. lia.
Qed.

(** Removing "TSLA" from the initial watchlist. *)
Lemma remove_from_watchlist_removes_witness :
  ∃ pm' : PortfolioManager,
    remove_from_watchlist "TSLA" new_PortfolioManager = Ok pm'
    ∧ ("TSLA"%string ∉ watchlist pm')
    ∧ (∀ x : string,
         x ≠ "TSLA"%string ->
         (x ∈ watchlist pm' ↔ x ∈ watchlist new_PortfolioManager))
    ∧ length (watchlist new_PortfolioManager) = S (length (watchlist pm'))
    ∧ portfolio pm' = portfolio new_PortfolioManager.
Proof.
  apply (remove_from_watchlist_removes new_PortfolioManager "TSLA").
  - exact reachable_new.
  - apply (bool_decide_unpack _). vm_compute. exact I.
Defined.

(** X8. The holdings are append-only: whatever calls of [add_to_portfolio],
    [add_to_watchlist] and [remove_from_watchlist] are made, the earlier
    list of holdings is a prefix of the later one, so no holding is ever
    removed, changed or moved. *)
Theorem portfolio_append_only (pm pm' : PortfolioManager) :
  evolves pm pm' -> portfolio pm `prefix_of` portfolio pm'.
Proof.
  induction 1 as [pm | now s shares purchase_price pm pm' _ IH
                  | s pm pm' _ IH | s pm pm' pm'' _ IH Hrem].
  - reflexivity.
  - simpl. now apply prefix_app_r.
  - unfold add_to_watchlist. now case_bool_decide.
  - revert Hrem. unfold remove_from_watchlist.
    case_bool_decide; [| now intros [= <-]].
    destruct (list_remove s (watchlist pm')); [| discriminate].
    now intros [= <-].
Qed.

(** A holding bought first is still first after more activity. *)
Lemma portfolio_append_only_witness :
  portfolio (add_to_portfolio 0 "aapl" 10 150 new_PortfolioManager)
  `prefix_of`
  portfolio (add_to_portfolio 5 "msft" 2 300
               (add_to_watchlist "ibm"
                  (add_to_portfolio 0 "aapl" 10 150 new_PortfolioManager))).
Proof.
  apply portfolio_append_only.
  apply evolves_add_to_portfolio, evolves_add_to_watchlist, evolves_refl.
Defined.

(** X9. In every state of the [PortfolioManager] the watchlist has no
    duplicate, every symbol in it is in uppercase form, and so is the
    symbol of every holding. *)
Theorem reachable_symbols_uppercase (pm : PortfolioManager) :
  reachable pm ->
  NoDup (watchlist pm)
  ∧ Forall (λ x, upper x = x) (watchlist pm)
  ∧ Forall (λ h, upper (h_symbol h) = h_symbol h) (portfolio pm).
Proof.
  intros Hreach.
  destruct (reachable_watchlist_canonical pm Hreach) as [Hnodup Hcanon].
  split; [exact Hnodup |]. split; [exact Hcanon |]. clear Hnodup Hcanon.
  induction Hreach as [| now s shares purchase_price pm _ IH | s pm _ IH
                       | s pm pm' _ IH Hrem].
  - constructor.
  - simpl. apply Forall_app. split; [exact IH |].
    constructor; [apply upper_idemp | constructor].
  - unfold add_to_watchlist. now case_bool_decide.
  - revert Hrem. unfold remove_from_watchlist.
    case_bool_decide; [| now intros [= <-]].
    destruct (list_remove s (watchlist pm)); [| discriminate].
    now intros [= <-].
Qed.

(** After "aapl" was bought and "ibm" put on the watchlist. *)
Lemma reachable_symbols_uppercase_witness :
  let pm := add_to_watchlist "ibm"
              (add_to_portfolio 0 "aapl" 10 150 new_PortfolioManager) in
  NoDup (watchlist pm)
  ∧ Forall (λ x, upper x = x) (watchlist pm)
  ∧ Forall (λ h, upper (h_symbol h) = h_symbol h) (portfolio pm).
Proof.
  intros pm. apply (reachable_symbols_uppercase pm).
  apply reachable_add_to_watchlist, reachable_add_to_portfolio,
    reachable_new.
Defined.

(** ** The totals of the portfolio panel *)

(** X10. The loop of [create_portfolio_content] looks only at the holdings
    whose symbol is in the snapshot.  If one of them has a cost basis
    [shares * purchase_price] equal to 0 it raises [ZeroDivisionError];
    otherwise it returns, as total value and total cost, the left-to-right
    sums of [shares * current_price] and of [shares * purchase_price] over
    those holdings.  Holdings without a quote contribute to neither sum. *)
Theorem create_portfolio_content_totals_spec (holdings : list Holding)
    (current_data : gmap string StockData) (totals : number * number) :
  create_portfolio_content_totals holdings current_data totals
  = if existsb zero_cost_basis (List.filter (priced current_data) holdings)
    then Raise ZeroDivisionError
    else Ok (fold_left
               (λ n h, number_add_float n (current_value current_data h))
               (List.filter (priced current_data) holdings) (fst totals),
             fold_left (λ n h, number_add_float n (cost_basis h))
               (List.filter (priced current_data) holdings) (snd totals)).
Proof.
  revert totals. induction holdings as [| h rest IH]; intros [tv tc];
    [reflexivity |].
  cbn [create_portfolio_content_totals List.filter].
  destruct (current_data !! h_symbol h) as [data |] eqn:Hdata.
  - assert (Hpriced : priced current_data h = true).
    { unfold priced. rewrite Hdata. apply bool_decide_eq_true_2. by eexists. }
    assert (Hvalue : current_value current_data h
                     = (h_shares h * price data)%float).
    { unfold current_value. now rewrite Hdata. }
    rewrite Hpriced. cbn [existsb fold_left fst snd]. unfold float_truediv.
    change (h_shares h * h_purchase_price h =? 0)%float
      with (zero_cost_basis h).
    destruct (zero_cost_basis h); [reflexivity |].
    rewrite IH. cbn [orb fst snd]. now rewrite Hvalue.
  - assert (Hpriced : priced current_data h = false).
    { unfold priced. rewrite Hdata. apply bool_decide_eq_false_2.
      intros [? ?]. discriminate. }
    rewrite Hpriced. now rewrite IH.
Qed.

(** The loop over two lists in a row. *)
Lemma create_portfolio_content_totals_app (l1 l2 : list Holding)
    (current_data : gmap string StockData) :
  ∀ totals : number * number,
    create_portfolio_content_totals (l1 ++ l2) current_data totals
    = match create_portfolio_content_totals l1 current_data totals with
      | Ok totals' => create_portfolio_content_totals l2 current_data totals'
      | Raise e => Raise e
      end.
Proof.
  induction l1 as [| h rest IH]; intros totals; simpl; [reflexivity |].
  destruct (current_data !! h_symbol h) as [data |]; [| apply IH].
  destruct (float_truediv _ _); [apply IH | reflexivity].
Qed.

(** The only exception of the loop is the division by a zero cost basis. *)
Lemma create_portfolio_content_totals_exn (holdings : list Holding)
    (current_data : gmap string StockData) :
  ∀ (totals : number * number) (e : exn),
    create_portfolio_content_totals holdings current_data totals = Raise e ->
    e = ZeroDivisionError.
Proof.
  induction holdings as [| h rest IH]; intros totals e; simpl; [discriminate |].
  destruct (current_data !! h_symbol h) as [data |]; [| apply IH].
  unfold float_truediv. destruct (_ =? _)%float; [congruence | apply IH].
Qed.

(** X11. [add_to_portfolio] accepts a holding whose cost basis is 0 (no
    share, or a price of 0); once such a holding is in the portfolio and
    the snapshot has a quote for its symbol, the loop of
    [create_portfolio_content] raises [ZeroDivisionError] instead of
    producing totals, whatever the other holdings are. *)
Theorem zero_cost_holding_breaks_totals (now : datetime) (s : string)
    (shares purchase_price : float) (pm : PortfolioManager)
    (current_data : gmap string StockData) :
  is_Some (current_data !! upper s) ->
  (shares * purchase_price =? 0)%float = true ->
  create_portfolio_content_totals
    (portfolio (add_to_portfolio now s shares purchase_price pm))
    current_data (Int 0, Int 0)
  = Raise ZeroDivisionError.
Proof.
  intros [data Hdata] Hzero. simpl.
  rewrite create_portfolio_content_totals_app.
  destruct (create_portfolio_content_totals (portfolio pm) current_data
              (Int 0, Int 0)) as [totals' | e] eqn:Hbefore.
  - simpl. rewrite Hdata. unfold float_truediv. now rewrite Hzero.
  - now rewrite (create_portfolio_content_totals_exn _ _ _ _ Hbefore).
Qed.

(** Buying no share of AAPL while the snapshot prices AAPL. *)
Lemma zero_cost_holding_breaks_totals_witness :
  create_portfolio_content_totals
    (portfolio (add_to_portfolio 0 "aapl" 0 150 new_PortfolioManager))
    aapl_snapshot (Int 0, Int 0)
  = Raise ZeroDivisionError.
Proof.
  apply (zero_cost_holding_breaks_totals 0 "aapl" 0 150 new_PortfolioManager
           aapl_snapshot).
  - exists aapl_165. reflexivity.
  - reflexivity.
Defined.

(** ** The market overview chart *)

(** The value and the colour of the bar of one index. *)
Lemma create_market_overview_chart_bars
    (current_data : gmap string StockData) :
  create_market_overview_chart current_data
  = Some (snd <$> MARKET_INDICES,
          (λ sym, match current_data !! sym with
                  | Some data => Float (change_percent data)
                  | None => Int 0
                  end) <$> (fst <$> MARKET_INDICES),
          (λ sym, match current_data !! sym with
                  | Some data => if (0 <=? change_percent data)%float
                                 then "green" else "red"
                  | None => "gray"
                  end%string) <$> (fst <$> MARKET_INDICES)).
Proof.
  unfold create_market_overview_chart.
  assert (H1 : dict_lookup "^GSPC" MARKET_INDICES = Some "S&P 500"%string)
    by reflexivity.
  assert (H2 : dict_lookup "^DJI" MARKET_INDICES = Some "Dow Jones"%string)
    by reflexivity.
  assert (H3 : dict_lookup "^IXIC" MARKET_INDICES = Some "NASDAQ"%string)
    by reflexivity.
  assert (H4 : dict_lookup "^VIX" MARKET_INDICES = Some "VIX"%string)
    by reflexivity.
  change (fst <$> MARKET_INDICES) with ["^GSPC"; "^DJI"; "^IXIC"; "^VIX"]%string.
  change (snd <$> MARKET_INDICES)
    with ["S&P 500"; "Dow Jones"; "NASDAQ"; "VIX"]%string.
  cbn [market_overview_loop fmap list_fmap]. rewrite H1.
  destruct (current_data !! "^GSPC"%string);
    cbn [market_overview_loop app]; rewrite H2;
    destruct (current_data !! "^DJI"%string);
    cbn [market_overview_loop app]; rewrite H3;
    destruct (current_data !! "^IXIC"%string);
    cbn [market_overview_loop app]; rewrite H4;
    destruct (current_data !! "^VIX"%string); reflexivity.
Qed.

(** X12. Whatever the snapshot holds, the loop of
    [create_market_overview_chart] raises no [KeyError] and collects
    exactly four bars, named after the four indices in their order.  The bar of an index without an entry
    in the snapshot has value 0 and colour gray; the bar of an index with
    an entry has the entry's percent change as value, and is green when
    that is at least 0 and red otherwise (so red for NaN). *)
Theorem create_market_overview_chart_spec
    (current_data : gmap string StockData) :
  ∃ (changes : list number) (colors : list string),
    create_market_overview_chart current_data
    = Some (["S&P 500"; "Dow Jones"; "NASDAQ"; "VIX"]%string, changes, colors)
    ∧ length changes = 4%nat
    ∧ length colors = 4%nat
    ∧ ∀ (i : nat) (sym : string),
        fst <$> MARKET_INDICES !! i = Some sym ->
        match current_data !! sym with
        | None =>
            changes !! i = Some (Int 0) ∧ colors !! i = Some "gray"%string
        | Some data =>
            changes !! i = Some (Float (change_percent data))
            ∧ colors !! i
              = Some (if (0 <=? change_percent data)%float
                      then "green" else "red")%string
        end.
Proof.
  rewrite create_market_overview_chart_bars.
  eexists _, _. split; [reflexivity |].
  split; [reflexivity |]. split; [reflexivity |].
  intros i sym Hi. rewrite !list_lookup_fmap, Hi. simpl.
  now destruct (current_data !! sym).
Qed.

(** X13. A bar of the market overview chart that is not gray before a run
    of [update_market_data] is not gray after it: an index that has been
    priced once never goes back to "no data", however many fetches fail. *)
Theorem update_market_data_keeps_bars_coloured (E : nat -> Env) (app : App)
    (i : nat) (c : string) :
  bar_colors (current_data app) !! i = Some c ->
  c ≠ "gray"%string ->
  ∃ c' : string,
    bar_colors (current_data (update_market_data E app)) !! i = Some c'
    ∧ c' ≠ "gray"%string.
Proof.
  assert (Hentry : ∀ sym : string,
            current_data (update_market_data E app) !! sym
            = current_data app !! sym
            ∨ ∃ d : StockData,
                current_data (update_market_data E app) !! sym = Some d).
  { intros sym. rewrite update_market_data_one_loop.
    destruct (refresh_symbols_entry E (tracked_symbols app) sym 0
                (stock_manager app) (current_data app))
      as [Hsame | (d & _ & Hd)]; [by left | right; by eexists]. }
  revert Hentry. generalize (current_data (update_market_data E app)).
  intros cd' Hentry.
  unfold bar_colors. rewrite !create_market_overview_chart_bars.
  rewrite !list_lookup_fmap.
  destruct (MARKET_INDICES !! i) as [[sym index_name] |]; simpl;
    [| discriminate].
  intros [= <-] Hcol.
  destruct (current_data app !! sym) as [data |] eqn:Hbefore;
    [| contradiction].
  eexists. split; [reflexivity |].
  destruct (Hentry sym) as [-> | [d ->]].
  - rewrite Hbefore. exact Hcol.
  - simpl. destruct (0 <=? change_percent d)%float; discriminate.
Qed.

(** The "^DJI" bar (the second) is green before the run in which the
    provider fails for "^DJI", and coloured after it. *)
Lemma update_market_data_keeps_bars_coloured_witness :
  ∃ c' : string,
    bar_colors (current_data (update_market_data dji_down sample_app))
      !! 1%nat = Some c'
    ∧ c' ≠ "gray"%string.
Proof.
  apply (update_market_data_keeps_bars_coloured dji_down sample_app 1
           "green").
  - reflexivity.
  - discriminate.
Defined.

(** ** The image list *)

(** With a keyword list that is not empty, the loop body raises nothing. *)
Lemma financial_image_total (hash : string -> Z) (section : string)
    (categories : list string) (i : Z) :
  categories ≠ [] ->
  ∃ keyword : string,
    categories !! Z.to_nat (i mod Z.of_nat (length categories)) = Some keyword
    ∧ financial_image hash section categories i
      = Some
          (let seed :=
             hash ("financial_" +:+ section +:+ "_" +:+ pretty i) mod 10000 in
           {| primary := "https://source.unsplash.com/1200x600/?"
                         +:+ keyword +:+ "&sig=" +:+ pretty seed;
              fallback := "https://picsum.photos/1200/600?random="
                          +:+ pretty seed;
              alt := "Professional " +:+ keyword
                     +:+ " imagery for financial dashboard" |}).
Proof.
  intros Hne. unfold financial_image.
  assert (Hlen : 0 < Z.of_nat (length categories)).
  { destruct categories; [contradiction | simpl; lia]. }
  destruct (Z.eqb_spec (Z.of_nat (length categories)) 0) as [Hz | _]; [lia |].
  destruct (lookup_lt_is_Some_2 categories
              (Z.to_nat (i mod Z.of_nat (length categories))))
    as [keyword Hk].
  { pose proof (Z.mod_pos_bound i _ Hlen). lia. }
  exists keyword. split; [exact Hk |]. now rewrite Hk.
Qed.

Lemma get_financial_images_loop_total (hash : string -> Z) (section : string)
    (categories : list string) (indices : list Z) :
  categories ≠ [] ->
  ∀ images : list ImageUrls,
    ∃ new : list ImageUrls,
      get_financial_images_loop hash section categories indices images
      = Some (images ++ new)
      ∧ Forall2 (λ i image,
                   financial_image hash section categories i = Some image)
          indices new.
Proof.
  intros Hne. induction indices as [| i rest IH]; intros images; simpl.
  - exists []. split; [now rewrite app_nil_r | constructor].
  - destruct (financial_image_total hash section categories i Hne)
      as (keyword & _ & Himage).
    destruct (financial_image hash section categories i) as [image |]
      eqn:Himg; [| discriminate].
    destruct (IH (images ++ [image])) as (new & -> & Hall).
    exists (image :: new). split; [now rewrite <- app_assoc |].
    constructor; [exact Himg | exact Hall].
Qed.

(** Every section, known or not, comes with keywords. *)
Lemma section_keywords_not_empty (section : string) :
  default ["finance"; "business"]%string
    (dict_lookup section FINANCIAL_CATEGORIES) ≠ [].
Proof.
  unfold FINANCIAL_CATEGORIES. simpl.
  repeat (destruct (decide _); [discriminate |]). discriminate.
Qed.

(** X14. For every section name (an unknown one falls back to the keywords
    "finance" and "business"), every [count] and whatever [hash] computes,
    [get_financial_images] raises nothing and returns exactly [count]
    images, none when [count] is 0 or negative.  Image number [i] is built
    from the keyword at position [i] modulo the number of keywords, so the
    keywords repeat in a cycle, and from a seed between 0 and 9999. *)
Theorem get_financial_images_spec (hash : string -> Z) (section : string)
    (count : Z) :
  let categories :=
    default ["finance"; "business"]%string
      (dict_lookup section FINANCIAL_CATEGORIES) in
  ∃ images : list ImageUrls,
    get_financial_images hash section count = Some images
    ∧ length images = Z.to_nat count
    ∧ ∀ (i : nat) (image : ImageUrls),
        images !! i = Some image ->
        ∃ (keyword : string) (seed : Z),
          categories !! (i mod length categories)%nat = Some keyword
          ∧ seed
            = hash ("financial_" +:+ section +:+ "_" +:+ pretty (Z.of_nat i))
              mod 10000
          ∧ 0 <= seed < 10000
          ∧ image
            = {| primary := "https://source.unsplash.com/1200x600/?"
                            +:+ keyword +:+ "&sig=" +:+ pretty seed;
                 fallback := "https://picsum.photos/1200/600?random="
                             +:+ pretty seed;
                 alt := "Professional " +:+ keyword
                        +:+ " imagery for financial dashboard" |}.
Proof.
  intros categories. unfold get_financial_images. fold categories.
  pose proof (section_keywords_not_empty section) as Hne. fold categories in Hne.
  destruct (get_financial_images_loop_total hash section categories
              (py_range count) Hne []) as (images & -> & Hall).
  exists images. split; [reflexivity |]. split.
  - apply Forall2_length in Hall. rewrite <- Hall. unfold py_range.
    now rewrite length_fmap, length_seq.
  - intros i image Hi.
    destruct (Forall2_lookup_r _ _ _ _ _ Hall Hi) as (idx & Hidx & Himage).
    unfold py_range in Hidx. rewrite list_lookup_fmap in Hidx.
    destruct (seq 0 (Z.to_nat count) !! i) as [n |] eqn:Hn; [| discriminate].
    apply lookup_seq in Hn as [-> _]. simpl in Hidx. injection Hidx as <-.
    destruct (financial_image_total hash section categories (Z.of_nat i) Hne)
      as (keyword & Hk & Himage').
    rewrite Himage' in Himage. injection Himage as <-.
    exists keyword, (hash ("financial_" +:+ section +:+ "_"
                           +:+ pretty (Z.of_nat i)) mod 10000).
    split; [| split; [reflexivity | split; [| reflexivity]]].
    + rewrite <- Nat2Z.inj_mod, Nat2Z.id in Hk. exact Hk.
    + apply Z.mod_pos_bound. lia.
Qed.

Example get_financial_images_unknown_section :
  get_financial_images (λ _, -3) "news" 3
  = Some
      [ {| primary := "https://source.unsplash.com/1200x600/?finance&sig=9997";
           fallback := "https://picsum.photos/1200/600?random=9997";
           alt := "Professional finance imagery for financial dashboard" |};
        {| primary := "https://source.unsplash.com/1200x600/?business&sig=9997";
           fallback := "https://picsum.photos/1200/600?random=9997";
           alt := "Professional business imagery for financial dashboard" |};
        {| primary := "https://source.unsplash.com/1200x600/?finance&sig=9997";
           fallback := "https://picsum.photos/1200/600?random=9997";
           alt := "Professional finance imagery for financial dashboard" |}
      ]%string.
Proof. vm_compute. reflexivity. Qed.

(** ** The two input forms *)

Lemma update_market_data_portfolio_manager (E : nat -> Env) (app : App) :
  portfolio_manager (update_market_data E app) = portfolio_manager app.
Proof. reflexivity. Qed.

Lemma update_market_data_never_evicts (E : nat -> Env) (app : App) :
  dom (cache (stock_manager app))
  ⊆ dom (cache (stock_manager (update_market_data E app))).
Proof.
  rewrite update_market_data_manager_one_loop.
  apply refresh_symbols_never_evicts.
Qed.

(** X15. The watchlist dialog adds a symbol only after [get_stock_data]
    has returned a quote for its uppercase form: then the manager is the
    one [add_to_watchlist] gives, the symbol is in the watchlist and the
    cache has an entry for it.  When the call returns [None] the watchlist,
    the snapshot and the cache are left as they were, and with an empty
    input nothing changes at all.  The holdings are never touched. *)
Theorem add_to_watchlist_dialog_add_stock_spec (w : Env) (E : nat -> Env)
    (value : string) (app : App) :
  let r := add_to_watchlist_dialog_add_stock w E value app in
  portfolio (portfolio_manager (fst r)) = portfolio (portfolio_manager app)
  ∧ match snd r with
    | AddedToWatchlist sym =>
        value ≠ ""%string
        ∧ sym = upper value
        ∧ is_Some (fst (get_stock_data w sym (stock_manager app)))
        ∧ portfolio_manager (fst r)
          = add_to_watchlist value (portfolio_manager app)
        ∧ sym ∈ watchlist (portfolio_manager (fst r))
        ∧ is_Some (cache (stock_manager (fst r)) !! sym)
    | InvalidSymbol sym =>
        value ≠ ""%string
        ∧ sym = upper value
        ∧ fst (get_stock_data w sym (stock_manager app)) = None
        ∧ portfolio_manager (fst r) = portfolio_manager app
        ∧ current_data (fst r) = current_data app
        ∧ cache (stock_manager (fst r)) = cache (stock_manager app)
    | EnterSymbol => value = ""%string ∧ fst r = app
    end.
Proof.
  intros r. subst r. unfold add_to_watchlist_dialog_add_stock.
  destruct (decide (value = ""%string)) as [-> | Hne]; [by repeat split |].
  destruct (get_stock_data w (upper value) (stock_manager app))
    as [data sm] eqn:Hcall.
  assert (Hfst : fst (get_stock_data w (upper value) (stock_manager app))
                 = data) by now rewrite Hcall.
  assert (Hsnd : snd (get_stock_data w (upper value) (stock_manager app))
                 = sm) by now rewrite Hcall.
  assert (Hadd : add_to_watchlist (upper value) (portfolio_manager app)
                 = add_to_watchlist value (portfolio_manager app)).
  { unfold add_to_watchlist. now rewrite upper_idemp. }
  destruct data as [q |]; cbn [fst snd].
  - rewrite update_market_data_portfolio_manager. cbn [portfolio_manager].
    rewrite Hadd. split.
    + unfold add_to_watchlist. now case_bool_decide.
    + split; [exact Hne |]. split; [reflexivity |].
      split; [by eexists |]. split; [reflexivity |].
      split; [apply add_to_watchlist_stores_upper |].
      apply elem_of_dom. eapply update_market_data_never_evicts.
      cbn [stock_manager]. apply elem_of_dom. subst sm.
      rewrite (get_stock_data_returns_entry w _ _ q Hfst). by eexists.
  - cbn [portfolio_manager current_data stock_manager]. split; [reflexivity |].
    split; [exact Hne |]. split; [reflexivity |].
    split; [exact Hfst |]. split; [reflexivity |].
    split; [reflexivity |]. subst sm.
    now apply get_stock_data_none_keeps_cache.
Qed.

(** X16. The portfolio form changes the application only when its three
    fields are filled in and both numbers are accepted by [float]: then
    exactly one holding is appended, with the symbol uppercased and the two
    numbers as parsed.  When a field is empty or a number is rejected the
    application is left exactly as it was, so a rejected price never leaves
    a half-recorded holding.  The watchlist is unchanged in every case. *)
Theorem create_portfolio_content_add_stock_spec
    (float_of_str : string -> option float) (now : datetime)
    (E : nat -> Env) (symbol_value shares_value price_value : string)
    (app : App) :
  let app' := create_portfolio_content_add_stock float_of_str now E
                symbol_value shares_value price_value app in
  watchlist (portfolio_manager app') = watchlist (portfolio_manager app)
  ∧ match float_of_str shares_value, float_of_str price_value with
    | Some shares, Some purchase_price =>
        if decide (symbol_value = ""%string ∨ shares_value = ""%string
                   ∨ price_value = ""%string)
        then app' = app
        else portfolio (portfolio_manager app')
             = portfolio (portfolio_manager app)
               ++ [ {| h_symbol := upper symbol_value; h_shares := shares;
                       h_purchase_price := purchase_price;
                       h_purchase_date := now |} ]
    | _, _ => app' = app
    end.
Proof.
  intros app'. subst app'. unfold create_portfolio_content_add_stock.
  destruct (decide (symbol_value = ""%string ∨ shares_value = ""%string
                    ∨ price_value = ""%string)) as [Hempty | Hfilled].
  - assert (Hcond : bool_decide (symbol_value ≠ ""%string)
                    && bool_decide (shares_value ≠ ""%string)
                    && bool_decide (price_value ≠ ""%string) = false).
    { destruct Hempty as [-> | [-> | ->]]; simpl;
        rewrite ?andb_false_r; reflexivity. }
    rewrite Hcond. split; [reflexivity |].
    destruct (float_of_str shares_value), (float_of_str price_value);
      reflexivity.
  - assert (Hcond : bool_decide (symbol_value ≠ ""%string)
                    && bool_decide (shares_value ≠ ""%string)
                    && bool_decide (price_value ≠ ""%string) = true).
    { rewrite !andb_true_iff, !bool_decide_eq_true.
      repeat split; intros ->; apply Hfilled; auto. }
    rewrite Hcond.
    destruct (float_of_str shares_value) as [shares |];
      [| split; reflexivity].
    destruct (float_of_str price_value) as [purchase_price |];
      split; reflexivity.
Qed.

(** ** Staleness *)

(** X17. [get_stock_data] never hands out a quote that is older than
    [cache_duration] at the moment the cache is checked: a returned quote
    is either a cached one that passed the freshness test of this call, or
    one that this call fetched and stamped itself. *)
Theorem get_stock_data_never_stale (w : Env) (s : string)
    (m : StockDataManager) (q : StockData) :
  fst (get_stock_data w s m) = Some q ->
  (now_check w - last_updated q < cache_duration
   ∧ cache m !! s = Some q
   ∧ snd (get_stock_data w s m) = m)
  ∨ (last_updated q = now_stamp w
     ∧ fetched (snd (get_stock_data w s m)) = fetched m ++ [s]).
Proof.
  unfold get_stock_data, cache_hit.
  destruct (cache m !! s) as [c |] eqn:Hc.
  - destruct (Z.ltb_spec (now_check w - last_updated c) cache_duration)
      as [Hfresh | Hstale]; simpl.
    + intros [= <-]. left. by repeat split.
    + destruct (provider w) as [| info hist]; [discriminate |].
      destruct (rev hist) as [| last_row earlier]; [discriminate |].
      simpl. intros [= <-]. right. by split.
  - destruct (provider w) as [| info hist]; [discriminate |].
    destruct (rev hist) as [| last_row earlier]; [discriminate |].
    simpl. intros [= <-]. right. by split.
Qed.

(** A quote stamped at 0 s and a call at 61 s: the stale quote is not
    returned, a new one stamped at 61 s is. *)
Lemma get_stock_data_never_stale_witness :
  let m := {| cache := {[ "AAPL"%string := quote_100 "AAPL" 0 ]};
              fetched := ["AAPL"%string] |} in
  let r := get_stock_data (world_at 61 (two_sessions 95 100)) "AAPL" m in
  (now_check (world_at 61 (two_sessions 95 100))
   - last_updated (quote_100 "AAPL" 61) < cache_duration
   ∧ cache m !! "AAPL"%string = Some (quote_100 "AAPL" 61)
   ∧ snd r = m)
  ∨ (last_updated (quote_100 "AAPL" 61)
     = now_stamp (world_at 61 (two_sessions 95 100))
     ∧ fetched (snd r) = fetched m ++ ["AAPL"%string]).
Proof.
  intros m r. subst r.
  apply (get_stock_data_never_stale (world_at 61 (two_sessions 95 100))
           "AAPL" m (quote_100 "AAPL" 61)).
  reflexivity.
Defined.
